(** * A stack-based bytecode interpreter: the execution frame of [main.py]

    The development embeds [class Frame] and [class VirtualMachine] of
    [src/main.py] as Rocq functions and proves (or refutes) the properties
    the specification states about them.

    Modelling choices.
    - Python objects that are mutated in place and shared by reference
      (the scope dictionaries [locals], [globals], [builtins], lists,
      iterators) live in a heap; values hold their locations.  A frame holds
      the locations of its three scopes, so two frames (or a frame and a
      closure built in it) that share a dictionary really alias it.
    - A Python [int] is a [Z]; [data_stack] is a [list] whose last element
      is the top of the stack, as in the source ([data_stack[-1]],
      [list.pop], [list.extend]); negative indices and slices are written
      out with their clamping.
    - A handler is a computation in a state-and-exception monad: a raised
      exception carries the state reached when it was raised, because
      Python does not roll a frame back.
    - Operations the source delegates to the host object system
      ([left + right], [getattr], [iter], [next], [len], truth testing, ...)
      are the functions [py_*].  They are defined on the value kinds of the
      model; where the host's answer lies outside the model (floating point,
      the methods of built-in types, host callables) they answer
      [Unmodelled], and no theorem below rests on such an answer.
    - [run] loops and recurses through calls, so it takes fuel. *)

From Stdlib Require Import ZArith String Ascii List Bool Lia.
From stdpp Require Import base option list gmap strings pretty.

Open Scope Z_scope.

(** ** Values, code objects, heap *)

Definition loc := nat.

#[local] Set Warnings "-register-all".

Inductive value : Type :=
  | VNone
  | VBool (b : bool)
  | VInt (n : Z)
  | VStr (s : string)
  | VTuple (items : list value)
  | VList (l : loc)
  | VIter (l : loc)
  | VCode (c : CodeType)
  | VFunction (fn : Function)
  | VMethod (func : value) (receiver : value)
  | VBuiltin (name : string)
  | VSlice (start stop step : value)
  | VObject (attrs : list (string * value))
with CodeType : Type :=
  | Code (co_argcount : nat) (co_varnames : list string)
         (co_names : list string) (co_instructions : list Instruction)
with Instruction : Type :=
  | Instr (opname : string) (arg : option Z) (argval : value) (offset : Z)
with Function : Type :=
  (* the closure [f] of [make_function]: the cells it reads are [self]
     (through [self.locals], [self.builtins], [self.globals], which a frame
     never reassigns), [code] and [defaults]; the cell of [defaults] is
     empty when the flag 0x01 was not set *)
  | Closure (self_builtins self_globals self_locals : loc)
            (fn_code : value) (fn_defaults : option value).

Definition co_argcount (c : CodeType) : nat :=
  match c with Code n _ _ _ => n end.
Definition co_varnames (c : CodeType) : list string :=
  match c with Code _ vs _ _ => vs end.
Definition co_names (c : CodeType) : list string :=
  match c with Code _ _ ns _ => ns end.
Definition co_instructions (c : CodeType) : list Instruction :=
  match c with Code _ _ _ ins => ins end.

Definition opname (i : Instruction) : string :=
  match i with Instr o _ _ _ => o end.
Definition arg (i : Instruction) : option Z :=
  match i with Instr _ a _ _ => a end.
Definition argval (i : Instruction) : value :=
  match i with Instr _ _ v _ => v end.
Definition offset (i : Instruction) : Z :=
  match i with Instr _ _ _ o => o end.

Inductive obj : Type :=
  | ODict (d : gmap string value)
  | OList (items : list value)
  (* a list iterator: the list it walks ([None] once exhausted) and the
     index of the next element *)
  | OListIter (seq : option loc) (index : nat)
  (* an iterator over an immutable sequence: what is left of it *)
  | OSeqIter (rest : list value).

Definition heap := list obj.

Definition alloc (o : obj) (h : heap) : loc * heap :=
  (length h, h ++ [o]).

(** ** Exceptions and the monad of handlers *)

Inductive exn : Type :=
  | NameError (msg : string)
  | AttributeError
  | AssertionError
  | IndexError
  | KeyError
  | TypeError
  | ValueError
  | ZeroDivisionError
  | StopIteration
  | NotImplementedError (msg : string)
  | RuntimeError (msg : string).

Inductive outcome (A : Type) : Type :=
  | Ok (a : A)
  | Raise (e : exn)
  | Unmodelled
  | OutOfFuel.
Arguments Ok {A} a.
Arguments Raise {A} e.
Arguments Unmodelled {A}.
Arguments OutOfFuel {A}.

Record Frame : Type := mkFrame {
  code : CodeType;
  builtins : loc;
  globals : loc;
  locals : loc;
  data_stack : list value;
  kw : value;
  ind_op : nat;
  instructions : list Instruction;
  offset_to_index : gmap Z nat;
  return_value_attr : value
}.

(** [Frame.__init__].  The host hands the builtins over as a dictionary or
    as a module whose [__dict__] is taken; either way the frame ends up with
    a dictionary, here its location. *)
Definition Frame_init (frame_code : CodeType)
    (frame_builtins frame_globals frame_locals : loc) : Frame :=
  {| code := frame_code;
     builtins := frame_builtins;
     globals := frame_globals;
     locals := frame_locals;
     data_stack := [];
     kw := VNone;
     ind_op := 0;
     instructions := [];
     offset_to_index := ∅;
     return_value_attr := VNone |}.

Definition state : Type := Frame * heap.

Definition M (A : Type) : Type := state -> outcome A * state.

Definition ret {A} (a : A) : M A := fun st => (Ok a, st).
Definition raise {A} (e : exn) : M A := fun st => (Raise e, st).
Definition unmodelled {A} : M A := fun st => (Unmodelled, st).

Definition bind {A B} (m : M A) (k : A -> M B) : M B :=
  fun st =>
    match m st with
    | (Ok a, st') => k a st'
    | (Raise e, st') => (Raise e, st')
    | (Unmodelled, st') => (Unmodelled, st')
    | (OutOfFuel, st') => (OutOfFuel, st')
    end.

Notation "'do' x <- m ; k" := (bind m (fun x => k))
  (at level 10, x name, m at level 100, k at level 200).

(** [try: m except e: handler] *)
Definition try_except {A} (m : M A) (catches : exn -> bool) (handler : M A) : M A :=
  fun st =>
    match m st with
    | (Raise e, st') => if catches e then handler st' else (Raise e, st')
    | r => r
    end.

Definition get_frame : M Frame := fun st => (Ok (fst st), st).
Definition get_heap : M heap := fun st => (Ok (snd st), st).
Definition set_frame (fr : Frame) : M unit := fun st => (Ok tt, (fr, snd st)).
Definition set_heap (h : heap) : M unit := fun st => (Ok tt, (fst st, h)).

(** lift a host answer that does not touch the state *)
Definition lift {A} (o : outcome A) : M A := fun st => (o, st).

Definition set_data_stack (s : list value) (fr : Frame) : Frame :=
  {| code := code fr; builtins := builtins fr; globals := globals fr;
     locals := locals fr; data_stack := s; kw := kw fr; ind_op := ind_op fr;
     instructions := instructions fr; offset_to_index := offset_to_index fr;
     return_value_attr := return_value_attr fr |}.

Definition set_ind_op (i : nat) (fr : Frame) : Frame :=
  {| code := code fr; builtins := builtins fr; globals := globals fr;
     locals := locals fr; data_stack := data_stack fr; kw := kw fr; ind_op := i;
     instructions := instructions fr; offset_to_index := offset_to_index fr;
     return_value_attr := return_value_attr fr |}.

Definition set_return_value (v : value) (fr : Frame) : Frame :=
  {| code := code fr; builtins := builtins fr; globals := globals fr;
     locals := locals fr; data_stack := data_stack fr; kw := kw fr;
     ind_op := ind_op fr;
     instructions := instructions fr; offset_to_index := offset_to_index fr;
     return_value_attr := v |}.

Definition set_program (ins : list Instruction) (tbl : gmap Z nat) (fr : Frame) : Frame :=
  {| code := code fr; builtins := builtins fr; globals := globals fr;
     locals := locals fr; data_stack := data_stack fr; kw := kw fr;
     ind_op := ind_op fr;
     instructions := ins; offset_to_index := tbl;
     return_value_attr := return_value_attr fr |}.

(** ** Python list indexing and slicing *)

(** [l[i]]; [None] stands for [IndexError] *)
Definition py_index {A} (l : list A) (i : Z) : option A :=
  let n := Z.of_nat (length l) in
  let i' := if i <? 0 then i + n else i in
  if (0 <=? i') && (i' <? n) then l !! Z.to_nat i' else None.

(** a slice bound for a positive step, clamped into [0, len] *)
Definition slice_bound (len i : Z) : Z :=
  if i <? 0 then Z.max (i + len) 0 else Z.min i len.

(** [l[start:]] *)
Definition py_slice_from {A} (l : list A) (start : Z) : list A :=
  drop (Z.to_nat (slice_bound (Z.of_nat (length l)) start)) l.

(** [l[:stop]] *)
Definition py_slice_to {A} (l : list A) (stop : Z) : list A :=
  take (Z.to_nat (slice_bound (Z.of_nat (length l)) stop)) l.

(** [l[start:] = []] *)
Definition py_del_slice_from {A} (l : list A) (start : Z) : list A :=
  take (Z.to_nat (slice_bound (Z.of_nat (length l)) start)) l.

(** [l[:stop:-1]]: from the last element down to, not including, index
    [stop]; a negative [stop] counts from the end and is clamped to [-1] *)
Definition py_slice_rev_to {A} (l : list A) (stop : Z) : list A :=
  let len := Z.of_nat (length l) in
  let stop' := if stop <? 0
               then (if stop + len <? 0 then -1 else stop + len)
               else (if len <=? stop then len - 1 else stop) in
  rev (drop (Z.to_nat (stop' + 1)) l).

(** [l[i] = x] *)
Definition py_set_index {A} (l : list A) (i : Z) (x : A) : option (list A) :=
  let n := Z.of_nat (length l) in
  let i' := if i <? 0 then i + n else i in
  if (0 <=? i') && (i' <? n) then Some (<[Z.to_nat i' := x]> l) else None.

(** ** Stack primitives of the frame *)

Definition top : M value :=
  do fr <- get_frame;
  match py_index (data_stack fr) (-1) with
  | Some v => ret v
  | None => raise IndexError
  end.

Definition pop : M value :=
  do fr <- get_frame;
  match py_index (data_stack fr) (-1) with
  | Some v =>
      do _ <- set_frame (set_data_stack (removelast (data_stack fr)) fr);
      ret v
  | None => raise IndexError
  end.

Definition peek : M value :=
  do fr <- get_frame;
  match py_index (data_stack fr) (-1) with
  | Some v => ret v
  | None => raise IndexError
  end.

Definition push (values : list value) : M unit :=
  do fr <- get_frame;
  set_frame (set_data_stack (data_stack fr ++ values) fr).

Definition popn (n : Z) : M (list value) :=
  if n >? 0 then
    do fr <- get_frame;
    let returned := py_slice_from (data_stack fr) (- n) in
    do _ <- set_frame (set_data_stack (py_del_slice_from (data_stack fr) (- n)) fr);
    ret returned
  else ret [].

(** ** Operands *)

(** an operand used as a Python [int] ([bool] is a subclass of [int]) *)
Definition as_int (v : value) : M Z :=
  match v with
  | VInt n => ret n
  | VBool b => ret (if b then 1 else 0)
  | _ => raise TypeError
  end.

(** an operand used as a name; the decoder hands names over as [str] *)
Definition as_name (v : value) : M string :=
  match v with
  | VStr s => ret s
  | _ => unmodelled
  end.

(** ** Scope dictionaries *)

Definition read_dict (l : loc) : M (gmap string value) :=
  do h <- get_heap;
  match h !! l with
  | Some (ODict d) => ret d
  | _ => unmodelled
  end.

Definition write_dict (l : loc) (d : gmap string value) : M unit :=
  do h <- get_heap;
  match h !! l with
  | Some (ODict _) => set_heap (<[l := ODict d]> h)
  | _ => unmodelled
  end.

(** [self.offset_to_index[argval]] *)
Definition jump_target (argval : value) : M nat :=
  do fr <- get_frame;
  match argval with
  | VInt n =>
      match offset_to_index fr !! n with
      | Some i => ret i
      | None => raise KeyError
      end
  | _ => raise KeyError
  end.

Definition jump_to (argval : value) : M unit :=
  do i <- jump_target argval;
  do fr <- get_frame;
  set_frame (set_ind_op i fr).


(** ** Host operations on the values of the model *)

Definition read_list (l : loc) : M (list value) :=
  do h <- get_heap;
  match h !! l with
  | Some (OList items) => ret items
  | _ => unmodelled
  end.

Definition new_object (o : obj) : M loc :=
  do h <- get_heap;
  let '(l, h') := alloc o h in
  do _ <- set_heap h';
  ret l.

(** truth testing, [if v:] *)
Definition py_bool (v : value) : M bool :=
  match v with
  | VNone => ret false
  | VBool b => ret b
  | VInt n => ret (negb (n =? 0))
  | VStr s => ret (negb (String.eqb s ""))
  | VTuple items => ret (negb (Nat.eqb (length items) 0))
  | VList l => do items <- read_list l; ret (negb (Nat.eqb (length items) 0))
  | VIter _ | VCode _ | VFunction _ | VMethod _ _ | VBuiltin _
  | VSlice _ _ _ => ret true
  | VObject _ => unmodelled
  end.

(** [len(v)] *)
Definition py_len (v : value) : M Z :=
  match v with
  | VStr s => ret (Z.of_nat (String.length s))
  | VTuple items => ret (Z.of_nat (length items))
  | VList l => do items <- read_list l; ret (Z.of_nat (length items))
  | VObject _ => unmodelled
  | _ => raise TypeError
  end.

Definition chars (s : string) : list value :=
  map (fun c => VStr (String c EmptyString)) (list_ascii_of_string s).

(** [iter(v)] *)
Definition py_iter (v : value) : M value :=
  match v with
  | VList l => do it <- new_object (OListIter (Some l) 0); ret (VIter it)
  | VTuple items => do it <- new_object (OSeqIter items); ret (VIter it)
  | VStr s => do it <- new_object (OSeqIter (chars s)); ret (VIter it)
  | VIter l => ret (VIter l)
  | VObject _ => unmodelled
  | _ => raise TypeError
  end.

(** [next(v)]: a list iterator reads the list as it is now, and drops it
    once it has run off its end *)
Definition py_next (v : value) : M value :=
  match v with
  | VIter it =>
      do h <- get_heap;
      match h !! it with
      | Some (OListIter (Some l) i) =>
          do items <- read_list l;
          match items !! i with
          | Some x =>
              do _ <- set_heap (<[it := OListIter (Some l) (S i)]> h);
              ret x
          | None =>
              do _ <- set_heap (<[it := OListIter None i]> h);
              raise StopIteration
          end
      | Some (OListIter None _) => raise StopIteration
      | Some (OSeqIter (x :: rest)) =>
          do _ <- set_heap (<[it := OSeqIter rest]> h);
          ret x
      | Some (OSeqIter []) => raise StopIteration
      | _ => unmodelled
      end
  | VObject _ => unmodelled
  | _ => raise TypeError
  end.

Fixpoint assoc (name : string) (attrs : list (string * value)) : option value :=
  match attrs with
  | [] => None
  | (k, v) :: rest => if String.eqb k name then Some v else assoc name rest
  end.

(** [getattr(v, name)].  A [VObject] is an instance given by the attributes
    that resolve on it; a name outside them raises [AttributeError].  The
    attributes of the built-in kinds are not modelled. *)
Definition py_getattr (v : value) (name : string) : M value :=
  match v with
  | VObject attrs =>
      match assoc name attrs with
      | Some a => ret a
      | None => raise AttributeError
      end
  | _ => unmodelled
  end.

(** [attr.__get__(v, type(v))].  A function binds to the receiver (or is
    returned as it is for the receiver [None]); the built-in kinds below
    have no [__get__], so looking it up raises [AttributeError]. *)
Definition py_descr_get (attr v : value) : M value :=
  match attr with
  | VFunction _ =>
      match v with
      | VNone => ret attr
      | _ => ret (VMethod attr v)
      end
  | VNone | VBool _ | VInt _ | VStr _ | VTuple _ | VList _ | VIter _
  | VCode _ | VBuiltin _ | VSlice _ _ _ => raise AttributeError
  | VObject attrs =>
      match assoc "__get__" attrs with
      | Some _ => unmodelled
      | None => raise AttributeError
      end
  | VMethod _ _ => unmodelled
  end.

(** binary operators, on [int] operands (and [+] on [str]); anything else,
    and whatever yields a [float], is outside the model *)
Inductive binop : Type :=
  | Add | Sub | Mul | TrueDiv | FloorDiv | Mod | And | Xor | Pow | Or
  | LShift | RShift.

Definition py_binary (op : binop) (left right : value) : M value :=
  match left, right with
  | VInt a, VInt b =>
      match op with
      | Add => ret (VInt (a + b))
      | Sub => ret (VInt (a - b))
      | Mul => ret (VInt (a * b))
      | TrueDiv => if b =? 0 then raise ZeroDivisionError else unmodelled
      | FloorDiv => if b =? 0 then raise ZeroDivisionError else ret (VInt (a / b))
      | Mod => if b =? 0 then raise ZeroDivisionError else ret (VInt (a mod b))
      | And => ret (VInt (Z.land a b))
      | Xor => ret (VInt (Z.lxor a b))
      | Pow => if b <? 0 then unmodelled else ret (VInt (a ^ b))
      | Or => ret (VInt (Z.lor a b))
      | LShift => if b <? 0 then raise ValueError else ret (VInt (Z.shiftl a b))
      | RShift => if b <? 0 then raise ValueError else ret (VInt (Z.shiftr a b))
      end
  | VStr a, VStr b =>
      match op with
      | Add => ret (VStr (a +:+ b))
      | _ => unmodelled
      end
  | _, _ => unmodelled
  end.

Inductive cmpop : Type :=
  | Lt | Le | Eq | Ne | Gt | Ge | In | NotIn | Is | IsNot | ExceptionMatch.

Definition py_compare (op : cmpop) (left right : value) : M value :=
  match left, right with
  | VInt a, VInt b =>
      match op with
      | Lt => ret (VBool (a <? b))
      | Le => ret (VBool (a <=? b))
      | Eq => ret (VBool (a =? b))
      | Ne => ret (VBool (negb (a =? b)))
      | Gt => ret (VBool (a >? b))
      | Ge => ret (VBool (a >=? b))
      | _ => unmodelled
      end
  | _, _ => unmodelled
  end.

(** the elements an iterable of the model yields, front to back *)
Definition py_elements (v : value) : M (list value) :=
  match v with
  | VTuple items => ret items
  | VList l => read_list l
  | VStr s => ret (chars s)
  | VObject _ | VIter _ => unmodelled
  | _ => raise TypeError
  end.

(** [container[key]] for an integer key *)
Definition py_getitem (container key : value) : M value :=
  match container, key with
  | VTuple _, VInt i | VList _, VInt i | VStr _, VInt i =>
      do items <- py_elements container;
      match py_index items i with
      | Some x => ret x
      | None => raise IndexError
      end
  | _, _ => unmodelled
  end.

(** [container[key] = v] *)
Definition py_setitem (container key v : value) : M unit :=
  match container, key with
  | VList l, VInt i =>
      do items <- read_list l;
      match py_set_index items i v with
      | Some items' => do h <- get_heap; set_heap (<[l := OList items']> h)
      | None => raise IndexError
      end
  | VTuple _, _ | VStr _, _ => raise TypeError
  | _, _ => unmodelled
  end.

(** [del container[key]] *)
Definition py_delitem (container key : value) : M unit :=
  match container, key with
  | VList l, VInt i =>
      do items <- read_list l;
      let n := Z.of_nat (length items) in
      let i' := if i <? 0 then i + n else i in
      if (0 <=? i') && (i' <? n)
      then do h <- get_heap;
           set_heap (<[l := OList (take (Z.to_nat i') items
                                   ++ drop (S (Z.to_nat i')) items)]> h)
      else raise IndexError
  | VTuple _, _ | VStr _, _ => raise TypeError
  | _, _ => unmodelled
  end.

(** the bounds of [l[start:stop]], each possibly [None] *)
Definition slice_bounds (len : Z) (start stop : value) : M (nat * nat) :=
  do lo <- match start with
           | VNone => ret 0
           | VInt i => ret (slice_bound len i)
           | _ => unmodelled
           end;
  do hi <- match stop with
           | VNone => ret len
           | VInt i => ret (slice_bound len i)
           | _ => unmodelled
           end;
  ret (Z.to_nat lo, Z.to_nat (Z.max lo hi)).

Definition string_of_chars (l : list value) : string :=
  fold_right (fun v acc => match v with VStr s => s +:+ acc | _ => acc end)
             EmptyString l.

(** [container[start:end]] *)
Definition py_getslice (container start stop : value) : M value :=
  match container with
  | VTuple _ | VList _ | VStr _ =>
      do items <- py_elements container;
      do b <- slice_bounds (Z.of_nat (length items)) start stop;
      let part := take (snd b - fst b)%nat (drop (fst b) items) in
      match container with
      | VTuple _ => ret (VTuple part)
      | VStr _ => ret (VStr (string_of_chars part))
      | _ => do l <- new_object (OList part); ret (VList l)
      end
  | _ => unmodelled
  end.

(** [container[start:end] = values] *)
Definition py_setslice (container start stop values : value) : M unit :=
  match container with
  | VList l =>
      do new <- py_elements values;
      do items <- read_list l;
      do b <- slice_bounds (Z.of_nat (length items)) start stop;
      do h <- get_heap;
      set_heap (<[l := OList (take (fst b) items ++ new ++ drop (snd b) items)]> h)
  | VTuple _ | VStr _ => raise TypeError
  | _ => unmodelled
  end.

(** [format(v, fmt_spec)] *)
Definition py_format (v fmt_spec : value) : M value :=
  match v, fmt_spec with
  | VStr s, VStr "" => ret (VStr s)
  | _, _ => unmodelled
  end.

(** ** The handlers of [class Frame]

    Every handler receives its operand as the decoder left it in the
    instruction (a [value]) and uses it as the source does. *)

Definition resume (arg : value) : M unit := ret tt.

Definition push_null (arg : value) : M unit := ret tt.

Definition precall (arg : value) : M unit := ret tt.

Section Call.
(** calling the popped value with the popped arguments: what a call does
    is fixed further down, once [run] is there *)
Variable call_value : value -> list value -> M value.

Definition call (arg : value) : M unit :=
  do n <- as_int arg;
  do arguments <- popn n;
  do f <- pop;
  do r <- call_value f arguments;
  push [r].
End Call.

Definition not_in_scope (arg : string) : string :=
  "Name '" +:+ arg +:+ "' not in scope.".

Definition load_name (arg : value) : M unit :=
  do arg <- as_name arg;
  do fr <- get_frame;
  do l <- read_dict (locals fr);
  match l !! arg with
  | Some v => push [v]
  | None =>
      do g <- read_dict (globals fr);
      match g !! arg with
      | Some v => push [v]
      | None =>
          do b <- read_dict (builtins fr);
          match b !! arg with
          | Some v => push [v]
          | None => raise (NameError (not_in_scope arg))
          end
      end
  end.

Definition load_global (arg : value) : M unit :=
  do arg <- as_name arg;
  do fr <- get_frame;
  do g <- read_dict (globals fr);
  match g !! arg with
  | Some v => push [v]
  | None =>
      do b <- read_dict (builtins fr);
      match b !! arg with
      | Some v => push [v]
      | None => raise (NameError (not_in_scope arg))
      end
  end.

Definition load_const (arg : value) : M unit := push [arg].

Definition load_fast (arg : value) : M unit :=
  do arg <- as_name arg;
  do fr <- get_frame;
  do l <- read_dict (locals fr);
  match l !! arg with
  | Some v => push [v]
  | None => raise KeyError
  end.

(** the method [return_value]; [run] never reaches it, it treats the opcode
    itself *)
Definition return_value (arg : value) : M unit :=
  do v <- pop;
  do fr <- get_frame;
  set_frame (set_return_value v fr).

Definition return_const (const : value) : M unit :=
  do fr <- get_frame;
  set_frame (set_return_value const fr).

Definition pop_top (arg : value) : M unit :=
  do _ <- pop;
  ret tt.

(** pop a component of the function when its flag is set in [arg] *)
Definition pop_if_flag (arg flag : Z) : M (option value) :=
  if Z.land arg flag =? 0 then ret None
  else do v <- pop; ret (Some v).

Definition make_function (arg : value) : M unit :=
  do arg <- as_int arg;
  do closure <- pop_if_flag arg 8;
  do annotations <- pop_if_flag arg 4;
  do kwdefaults <- pop_if_flag arg 2;
  do defaults <- pop_if_flag arg 1;
  do code <- pop;
  do fr <- get_frame;
  push [VFunction (Closure (builtins fr) (globals fr) (locals fr) code defaults)].

Definition store_name (arg : value) : M unit :=
  do arg <- as_name arg;
  do const <- pop;
  do fr <- get_frame;
  do l <- read_dict (locals fr);
  write_dict (locals fr) (<[arg := const]> l).

Definition store_fast (arg : value) : M unit :=
  do arg <- as_name arg;
  do const <- pop;
  do fr <- get_frame;
  do l <- read_dict (locals fr);
  write_dict (locals fr) (<[arg := const]> l).

(** [str(v)], as an f-string interpolates it *)
Definition py_str (v : value) : M string :=
  match v with
  | VNone => ret "None"
  | VBool b => ret (if b then "True" else "False")
  | VInt n => ret (pretty n)
  | VStr s => ret s
  | _ => unmodelled
  end.

(** the operand of [binary_op] as a number, if it is one *)
Definition operand_number (op : value) : option Z :=
  match op with
  | VInt n => Some n
  | VBool b => Some (if b then 1 else 0)
  | _ => None
  end.

Definition is_op (op : value) (a b : Z) : bool :=
  match operand_number op with
  | Some n => (n =? a) || (n =? b)
  | None => false
  end.

Definition binary_op (op : value) : M unit :=
  do right <- pop;
  do left <- pop;
  do result <-
    (if is_op op 0 13 then py_binary Add left right
     else if is_op op 10 23 then py_binary Sub left right
     else if is_op op 5 18 then py_binary Mul left right
     else if is_op op 11 24 then py_binary TrueDiv left right
     else if is_op op 2 15 then py_binary FloorDiv left right
     else if is_op op 6 19 then py_binary Mod left right
     else if is_op op 1 14 then py_binary And left right
     else if is_op op 12 25 then py_binary Xor left right
     else if is_op op 8 21 then py_binary Pow left right
     else if is_op op 7 20 then py_binary Or left right
     else if is_op op 3 16 then py_binary LShift left right
     else if is_op op 9 22 then py_binary RShift left right
     else do s <- py_str op;
          raise (NotImplementedError ("Unknown binary operation: " +:+ s)));
  push [result].

Definition op_is (op : value) (s : string) : bool :=
  match op with
  | VStr o => String.eqb o s
  | _ => false
  end.

Definition compare_op (op : value) : M unit :=
  do right <- pop;
  do left <- pop;
  do result <-
    (if op_is op "<" then py_compare Lt left right
     else if op_is op "<=" then py_compare Le left right
     else if op_is op "==" then py_compare Eq left right
     else if op_is op "!=" then py_compare Ne left right
     else if op_is op ">" then py_compare Gt left right
     else if op_is op ">=" then py_compare Ge left right
     else if op_is op "in" then py_compare In left right
     else if op_is op "not in" then py_compare NotIn left right
     else if op_is op "is" then py_compare Is left right
     else if op_is op "is not" then py_compare IsNot left right
     else if op_is op "exception match" then py_compare ExceptionMatch left right
     else if op_is op "BAD" then raise (RuntimeError "Bad comparison op")
     else do s <- py_str op;
          raise (NotImplementedError ("Unknown compare operation: " +:+ s)));
  push [result].

Definition get_iter (arg : value) : M unit :=
  do value <- pop;
  do value <- py_iter value;
  push [value].

Definition is_StopIteration (e : exn) : bool :=
  match e with StopIteration => true | _ => false end.

Definition for_iter (argval : value) : M unit :=
  do iterator <- peek;
  try_except
    (do value <- py_next iterator;
     push [value])
    is_StopIteration
    (jump_to argval).

Definition end_for (arg : value) : M unit := pop_top VNone.

Definition jump_backward (argval : value) : M unit := jump_to argval.

Definition jump_forward (argval : value) : M unit := jump_to argval.

Definition pop_jump_if_false (argval : value) : M unit :=
  do compare_value <- pop;
  do b <- py_bool compare_value;
  if negb b then jump_to argval else ret tt.

Definition pop_jump_is_true (argval : value) : M unit :=
  do compare_value <- pop;
  do b <- py_bool compare_value;
  if b then jump_to argval else ret tt.

Definition format_value (argval : value) : M unit :=
  match argval with
  | VTuple [conversion; has_fmt_spec] =>
      do has <- py_bool has_fmt_spec;
      do fmt_spec <- (if has then pop else ret (VStr ""));
      do value <- pop;
      do converted <-
        match conversion with
        | VNone => ret value
        | VInt n =>
            if (n =? 115) || (n =? 114) || (n =? 97) then unmodelled
            else raise (NotImplementedError
                          ("Unsupported FORMAT_VALUE conversion: " +:+ pretty n))
        | _ => unmodelled
        end;
      do r <- py_format converted fmt_spec;
      push [r]
  | _ => unmodelled
  end.

Fixpoint build_string_loop (count : nat) (res : value) : M value :=
  match count with
  | O => ret res
  | S count' =>
      do v <- pop;
      do res' <- py_binary Add v res;
      build_string_loop count' res'
  end.

Definition build_string (count : value) : M unit :=
  do count <- as_int count;
  do res <- build_string_loop (Z.to_nat count) (VStr "");
  push [res].

Definition binary_slice (arg : value) : M unit :=
  do stop <- pop;
  do start <- pop;
  do container <- pop;
  do r <- py_getslice container start stop;
  push [r].

Definition build_slice (argc : value) : M unit :=
  if is_op argc 2 2 then
    do stop <- pop;
    do start <- pop;
    push [VSlice start stop VNone]
  else if is_op argc 3 3 then
    do step <- pop;
    do stop <- pop;
    do start <- pop;
    push [VSlice start stop step]
  else ret tt.

Definition binary_subscr (arg : value) : M unit :=
  do key <- pop;
  do container <- pop;
  do r <- py_getitem container key;
  push [r].

Definition store_subscr (arg : value) : M unit :=
  do key <- pop;
  do container <- pop;
  do value <- pop;
  py_setitem container key value.

Definition store_slice (arg : value) : M unit :=
  do stop <- pop;
  do start <- pop;
  do container <- pop;
  do values <- pop;
  py_setslice container start stop values.

Definition delete_subscr (arg : value) : M unit :=
  do key <- pop;
  do container <- pop;
  py_delitem container key.

(** the [else] branch shared by [build_tuple], [build_list], [build_set]:
    read [data_stack[-count:]] and rebind [data_stack] to
    [data_stack[:-count]] *)
Definition take_top (count : Z) : M (list value) :=
  do fr <- get_frame;
  let items := py_slice_from (data_stack fr) (- count) in
  do _ <- set_frame (set_data_stack (py_slice_to (data_stack fr) (- count)) fr);
  ret items.

Definition build_tuple (count : value) : M unit :=
  do count <- as_int count;
  do value <- (if count =? 0 then ret (VTuple [])
               else do items <- take_top count; ret (VTuple items));
  push [value].

Definition build_list (count : value) : M unit :=
  do count <- as_int count;
  do value <- (if count =? 0 then do l <- new_object (OList []); ret (VList l)
               else do items <- take_top count;
                    do l <- new_object (OList items);
                    ret (VList l));
  push [value].

(** sets are outside the model *)
Definition build_set (count : value) : M unit :=
  do count <- as_int count;
  do value <- (if count =? 0 then unmodelled
               else do items <- take_top count; unmodelled);
  push [value].

Definition list_extend (i : value) : M unit :=
  do seq <- pop;
  do i <- as_int i;
  do fr <- get_frame;
  match py_index (data_stack fr) (- i) with
  | Some (VList l) =>
      do new <- py_elements seq;
      do items <- read_list l;
      do h <- get_heap;
      set_heap (<[l := OList (items ++ new)]> h)
  | Some _ => unmodelled
  | None => raise IndexError
  end.

Definition is_AttributeError (e : exn) : bool :=
  match e with AttributeError => true | _ => false end.

Definition load_attr (namei : value) : M unit :=
  do value <- pop;
  do namei <- as_int namei;
  do fr <- get_frame;
  match py_index (co_names (code fr)) (Z.shiftr namei 1) with
  | None => raise IndexError
  | Some name =>
      if negb (Z.land namei 1 =? 0) then
        try_except
          (do attr <- py_getattr value name;
           do method <- py_descr_get attr value;
           do _ <- push [method];
           push [value])
          is_AttributeError
          (do _ <- push [VNone];
           do raw <- py_getattr value name;
           push [raw])
      else
        do raw <- py_getattr value name;
        push [raw]
  end.

Definition unpack_sequence (count : value) : M unit :=
  do fr <- get_frame;
  match py_index (data_stack fr) (-1) with
  | None => raise IndexError
  | Some t =>
      do n <- py_len t;
      match operand_number count with
      | Some count =>
          if negb (n =? count) then raise AssertionError
          else
            do seq <- pop;
            do items <- py_elements seq;
            push (py_slice_rev_to items (- count - 1))
      | None => raise AssertionError
      end
  end.

Definition copy (i : value) : M unit :=
  do i <- as_int i;
  if negb (i >? 0) then raise AssertionError
  else
    do fr <- get_frame;
    match py_index (data_stack fr) (- i) with
    | Some v => push [v]
    | None => raise IndexError
    end.

Definition swap (i : value) : M unit :=
  do i <- as_int i;
  do fr <- get_frame;
  match py_index (data_stack fr) (-1), py_index (data_stack fr) (- i) with
  | Some a, Some b =>
      match py_set_index (data_stack fr) (- i) a with
      | Some s =>
          match py_set_index s (-1) b with
          | Some s' => set_frame (set_data_stack s' fr)
          | None => raise IndexError
          end
      | None => raise IndexError
      end
  | _, _ => raise IndexError
  end.

Definition kw_names (consti : value) : M unit := ret tt.

(** ** The closure [f] built by [make_function] *)

(** [code.co_argcount], [code.co_varnames] on whatever was popped as the
    code *)
Definition as_code (v : value) : M CodeType :=
  match v with
  | VCode c => ret c
  | VObject _ => unmodelled
  | _ => raise AttributeError
  end.

(** reading a cell of the enclosing [make_function]; an empty cell is
    Python's "cannot access free variable" [NameError] *)
Definition free_variable (name : string) (cell : option value) : M value :=
  match cell with
  | Some v => ret v
  | None =>
      raise (NameError ("cannot access free variable '" +:+ name
               +:+ "' where it is not associated with a value in enclosing scope"))
  end.

Definition varname (c : CodeType) (i : nat) : M string :=
  match co_varnames c !! i with
  | Some x => ret x
  | None => raise IndexError
  end.

(** one turn of [for i in range(code.co_argcount)] *)
Definition bind_parameter (c : CodeType) (defaults : option value)
    (args : list value) (parsed_args : gmap string value) (i : nat)
    : M (gmap string value) :=
  match args !! i with
  | Some a =>
      do x <- varname c i;
      ret (<[x := a]> parsed_args)
  | None =>
      do d <- free_variable "defaults" defaults;
      do n <- py_len d;
      if Z.of_nat i >=? Z.of_nat (co_argcount c) - n then
        do v <- py_getitem d (VInt (Z.of_nat i - (Z.of_nat (co_argcount c) - n)));
        do x <- varname c i;
        ret (<[x := v]> parsed_args)
      else ret parsed_args
  end.

Fixpoint bind_parameters (c : CodeType) (defaults : option value)
    (args : list value) (parsed_args : gmap string value) (range : list nat)
    : M (gmap string value) :=
  match range with
  | [] => ret parsed_args
  | i :: range' =>
      do parsed_args' <- bind_parameter c defaults args parsed_args i;
      bind_parameters c defaults args parsed_args' range'
  end.

(** [parsed_args] as it stands after [parsed_args.update(kwargs)] *)
Definition parse_args (fn : Function) (args : list value)
    (kwargs : gmap string value) : M (gmap string value) :=
  match fn with
  | Closure _ _ _ code defaults =>
      do c <- as_code code;
      do parsed_args <-
        bind_parameters c defaults args ∅ (seq 0 (co_argcount c));
      ret (kwargs ∪ parsed_args)
  end.

(** [f] up to and including the creation of the child frame *)
Definition f_frame (fn : Function) (args : list value)
    (kwargs : gmap string value) : M Frame :=
  match fn with
  | Closure self_builtins self_globals self_locals code _ =>
      do parsed_args <- parse_args fn args kwargs;
      do self_locals_now <- read_dict self_locals;
      do f_locals <- new_object (ODict (parsed_args ∪ self_locals_now));
      do c <- as_code code;
      ret (Frame_init c self_builtins self_globals f_locals)
  end.

Section Run.
(** [frame.run()] on a frame other than the current one *)
Variable run_frame : Frame -> M value.

Definition f (fn : Function) (args : list value)
    (kwargs : gmap string value) : M value :=
  do frame <- f_frame fn args kwargs;
  run_frame frame.

(** calling a value with positional arguments: a closure of the machine
    runs [f]; a bound method passes its receiver first; host callables are
    outside the model *)
Fixpoint call_value (callee : value) (arguments : list value) : M value :=
  match callee with
  | VFunction fn => f fn arguments ∅
  | VMethod func receiver => call_value func (receiver :: arguments)
  | VBuiltin _ | VObject _ => unmodelled
  | _ => raise TypeError
  end.
End Run.

(** ** The dispatcher *)

(** [str.lower] on the ASCII names of opcodes *)
Definition lower_ascii (c : ascii) : ascii :=
  let n := nat_of_ascii c in
  if (65 <=? n)%nat && (n <=? 90)%nat then ascii_of_nat (n + 32) else c.

Fixpoint lower (s : string) : string :=
  match s with
  | EmptyString => EmptyString
  | String c s' => String (lower_ascii c) (lower s')
  end.

(** [{instr.offset: i for i, instr in enumerate(instructions)}]: a later
    instruction with the same offset replaces an earlier one *)
Fixpoint enumerate_offsets (ins : list Instruction) (i : nat)
    (tbl : gmap Z nat) : gmap Z nat :=
  match ins with
  | [] => tbl
  | instr :: rest => enumerate_offsets rest (S i) (<[offset instr := i]> tbl)
  end.

Definition build_offset_to_index (ins : list Instruction) : gmap Z nat :=
  enumerate_offsets ins 0%nat ∅.

(** the two assignments that open [run] *)
Definition run_prepare (fr : Frame) : Frame :=
  let ins := co_instructions (code fr) in
  set_program ins (build_offset_to_index ins) fr.

Section Dispatch.
Variable call_value : value -> list value -> M value.

(** the methods of [class Frame] that take one operand *)
Definition Frame_methods : list (string * (value -> M unit)) :=
  [ ("resume", resume);
    ("push_null", push_null);
    ("precall", precall);
    ("call", call call_value);
    ("load_name", load_name);
    ("load_global", load_global);
    ("load_const", load_const);
    ("load_fast", load_fast);
    ("return_const", return_const);
    ("pop_top", pop_top);
    ("make_function", make_function);
    ("store_name", store_name);
    ("store_fast", store_fast);
    ("binary_op", binary_op);
    ("compare_op", compare_op);
    ("get_iter", get_iter);
    ("for_iter", for_iter);
    ("end_for", end_for);
    ("jump_backward", jump_backward);
    ("jump_forward", jump_forward);
    ("pop_jump_if_false", pop_jump_if_false);
    ("pop_jump_is_true", pop_jump_is_true);
    ("format_value", format_value);
    ("build_string", build_string);
    ("binary_slice", binary_slice);
    ("build_slice", build_slice);
    ("binary_subscr", binary_subscr);
    ("store_subscr", store_subscr);
    ("store_slice", store_slice);
    ("delete_subscr", delete_subscr);
    ("build_tuple", build_tuple);
    ("build_list", build_list);
    ("build_set", build_set);
    ("list_extend", list_extend);
    ("load_attr", load_attr);
    ("unpack_sequence", unpack_sequence);
    ("copy", copy);
    ("swap", swap);
    ("kw_names", kw_names);
    (* the stack primitives are attributes of the frame too *)
    ("push", fun v => push [v]);
    ("popn", fun v => do n <- as_int v; do _ <- popn n; ret tt) ].

(** attributes of a frame that are there but cannot be called with one
    operand: the data attributes and the methods without a parameter.
    [return_value] is among them: [__init__] binds it to [None] on the
    instance, which hides the method of that name. *)
Definition Frame_other_attributes : list string :=
  [ "code"; "builtins"; "globals"; "locals"; "data_stack"; "kw"; "ind_op";
    "instructions"; "offset_to_index"; "return_value";
    "top"; "pop"; "peek"; "run" ].

Fixpoint lookup_method (name : string)
    (methods : list (string * (value -> M unit))) : option (value -> M unit) :=
  match methods with
  | [] => None
  | (k, h) :: rest => if String.eqb k name then Some h else lookup_method name rest
  end.

(** [getattr(self, opname)(operand)].  Names that start with two
    underscores resolve on every Python object; no opcode has such a name
    and they are left out. *)
Definition getattr_call (opname : string) (operand : value) : M unit :=
  match lookup_method opname Frame_methods with
  | Some handler => handler operand
  | None =>
      if existsb (String.eqb opname) Frame_other_attributes
      then raise TypeError
      else raise AttributeError
  end.

(** [instr.arg] as the value handed to [load_attr] *)
Definition arg_value (instr : Instruction) : value :=
  match arg instr with
  | Some n => VInt n
  | None => VNone
  end.

(** the body of the [while] loop of [run]: [Some v] when it returned [v] *)
Definition run_body (instr : Instruction) : M (option value) :=
  let opname := lower (opname instr) in
  do fr <- get_frame;
  let old_ind := ind_op fr in
  if String.eqb opname "return_value" then
    do v <- pop;
    ret (Some v)
  else
    do _ <- (if String.eqb opname "load_attr"
             then getattr_call opname (arg_value instr)
             else getattr_call opname (argval instr));
    do fr' <- get_frame;
    do _ <- (if Nat.eqb (ind_op fr') old_ind
             then set_frame (set_ind_op (ind_op fr' + 1) fr')
             else ret tt);
    ret None.
End Dispatch.

(** [frame.run()] for the frame of a call, given the loop: the child frame
    is prepared and run on the heap as it is now; the caller's frame is
    untouched and gets the heap the child leaves *)
Definition run_child (loop : M value) (frame : Frame) : M value :=
  fun st =>
    let '(r, (_, h)) := loop (run_prepare frame, snd st) in
    (r, (fst st, h)).

(** [run] from the [while] on.  The loop may not end and a call runs another
    frame, so both are bounded by [fuel]: a turn of the loop and the frame of
    a call each take one unit. *)
Fixpoint run_loop (fuel : nat) : M value :=
  fun st =>
    match fuel with
    | O => (OutOfFuel, st)
    | S fuel' =>
        match instructions (fst st) !! ind_op (fst st) with
        | Some instr =>
            match run_body (call_value (run_child (run_loop fuel'))) instr st with
            | (Ok (Some v), st') => (Ok v, st')
            | (Ok None, st') => run_loop fuel' st'
            | (Raise e, st') => (Raise e, st')
            | (Unmodelled, st') => (Unmodelled, st')
            | (OutOfFuel, st') => (OutOfFuel, st')
            end
        | None => (Ok VNone, st)
        end
    end.

Definition run (fuel : nat) : M value :=
  fun st => run_loop fuel (run_prepare (fst st), snd st).

(** calling a value from a frame that has [fuel] left *)
Definition call_function (fuel : nat) : value -> list value -> M value :=
  call_value (run_child (run_loop fuel)).

(** [VirtualMachine.run]: a fresh dictionary is both the globals and the
    locals of the root frame; the host's builtins are at [host_builtins] *)
Definition VirtualMachine_run (fuel : nat) (code_obj : CodeType)
    (host_builtins : loc) (h : heap) : outcome value * state :=
  let '(globals_context, h') := alloc (ODict ∅) h in
  let frame := Frame_init code_obj host_builtins globals_context globals_context in
  run fuel (frame, h').

(** ** Notions used to state the properties *)

(** [seq] is a Sequence of the model (a list, or a tuple) holding [items] *)
Definition is_sequence (seq : value) (h : heap) (items : list value) : Prop :=
  seq = VTuple items \/ exists l, seq = VList l /\ h !! l = Some (OList items).

(** [n] turns of a loop whose body does nothing but consume the value the
    advance pushed: [for_iter], then [pop_top] *)
Fixpoint advance_and_consume (n : nat) (argval : value) : M unit :=
  match n with
  | O => ret tt
  | S n' =>
      do _ <- advance_and_consume n' argval;
      do _ <- for_iter argval;
      pop_top VNone
  end.

(** "Whenever [load_attr] with the method bit set cannot bind the attribute
    (the attribute is absent from the receiver, or it is there and has no
    [__get__]), it ends normally with [None] and then the raw attribute on
    the stack." *)
Definition load_attr_always_falls_back : Prop :=
  forall (fr : Frame) (h : heap) (s : list value) (v : value) (namei : Z)
         (name : string),
    data_stack fr = s ++ [v] ->
    py_index (co_names (code fr)) (Z.shiftr namei 1) = Some name ->
    Z.land namei 1 = 1 ->
    (forall st attr st', py_getattr v name st = (Ok attr, st') ->
       exists st'', py_descr_get attr v st' = (Raise AttributeError, st'')) ->
    exists raw st',
      load_attr (VInt namei) (fr, h) = (Ok tt, st')
      /\ data_stack (fst st') = s ++ [VNone; raw].

(** slot [i], named [x], of a call is required and nothing covers it: no
    positional argument reaches it, the defaults (if any, a tuple) start
    after it, and no keyword argument names it *)
Definition uncovered_slot (c : CodeType) (defaults : option (list value))
    (args : list value) (kwargs : gmap string value) (i : nat) (x : string)
    : Prop :=
  (length args <= i < co_argcount c)%nat
  /\ co_varnames c !! i = Some x
  /\ kwargs !! x = None
  /\ match defaults with
     | Some ds => Z.of_nat i < Z.of_nat (co_argcount c) - Z.of_nat (length ds)
     | None => True
     end.

(** "A call that leaves a required slot uncovered fails while binding", read
    as generously as possible: with whatever exception. *)
Definition short_call_fails_in_binding : Prop :=
  forall (b g l : loc) (c : CodeType) (defaults : option (list value))
         (args : list value) (kwargs : gmap string value) (i : nat)
         (x : string) (st : state),
    uncovered_slot c defaults args kwargs i x ->
    exists e st',
      parse_args (Closure b g l (VCode c) (VTuple <$> defaults)) args kwargs st
      = (Raise e, st').

(** "The child frame of a call gets the locals of the defining frame as
    they were when the function was built": a value stored in a local [x]
    of the defining frame after [make_function] and before the call is not
    what the child frame finds under [x].  ([x] is not a variable of the
    called code, so no parameter is in the way.) *)
Definition closure_snapshot_at_build : Prop :=
  forall (fr : Frame) (h : heap) (flags : Z) (fr1 : Frame) (h1 : heap)
         (s1 : list value) (b g l : loc) (c : CodeType)
         (defaults : option value) (D0 : gmap string value)
         (x : string) (v : value) (fr2 : Frame) (h2 : heap)
         (caller : Frame) (args : list value) (child : Frame) (st' : state)
         (Dc : gmap string value),
    (* the build *)
    make_function (VInt flags) (fr, h) = (Ok tt, (fr1, h1)) ->
    data_stack fr1 = s1 ++ [VFunction (Closure b g l (VCode c) defaults)] ->
    h1 !! locals fr = Some (ODict D0) ->
    x ∉ co_varnames c ->
    (* a later store in the defining frame *)
    store_name (VStr x) (set_data_stack (s1 ++ [v]) fr1, h1) = (Ok tt, (fr2, h2)) ->
    (* the call *)
    f_frame (Closure b g l (VCode c) defaults) args ∅ (caller, h2)
      = (Ok child, st') ->
    snd st' !! locals child = Some (ODict Dc) ->
    Dc !! x = D0 !! x.

(** the opcodes whose handler is [pass] *)
Definition is_noop (instr : Instruction) : Prop :=
  lower (opname instr) ∈ ["resume"; "push_null"; "precall"; "kw_names"].

(** the strings of a list joined front to back *)
Definition concat_all (strs : list string) : string :=
  fold_right String.append EmptyString strs.

(** what a frame is given when it is created or prepared, and no handler
    assigns: its code, its three scopes, [kw], the instruction list and the
    jump table *)
Definition frame_static (fr : Frame)
    : CodeType * loc * loc * loc * value * list Instruction * gmap Z nat :=
  (code fr, builtins fr, globals fr, locals fr, kw fr, instructions fr,
   offset_to_index fr).

Definition same_static (st st' : state) : Prop :=
  frame_static (fst st') = frame_static (fst st).

(** a computation relates the state it starts from to the state it leaves,
    however it ends *)
Definition keeps {A} (R : state -> state -> Prop) (m : M A) : Prop :=
  forall st, R st (snd (m st)).

(** * Properties *)

(** invert one [do] of a computation known to end with [Ok] *)
Ltac bind_inv H :=
  unfold bind at 1 in H;
  match type of H with
  | context [match ?m ?st with _ => _ end] =>
      let E := fresh "E" in
      destruct (m st) as [[?|?| |] ?] eqn:E; try discriminate H
  end.


(** ** Slices and indices *)

Lemma py_index_last {A} (s : list A) (x : A) : py_index (s ++ [x]) (-1) = Some x.
Proof.
  unfold py_index. rewrite length_app. simpl.
  replace (-1 <? 0) with true by reflexivity.
  assert (E1 : (0 <=? -1 + Z.of_nat (length s + 1)) = true) by (apply Z.leb_le; lia).
  assert (E2 : (-1 + Z.of_nat (length s + 1) <? Z.of_nat (length s + 1)) = true)
    by (apply Z.ltb_lt; lia).
  rewrite E1, E2. simpl.
  replace (Z.to_nat (-1 + Z.of_nat (length s + 1))) with (length s + 0)%nat by lia.
  rewrite lookup_app_r by lia.
  replace (length s + 0 - length s)%nat with 0%nat by lia. reflexivity.
Qed.

Lemma py_index_nil {A} (i : Z) : py_index (@nil A) i = None.
Proof.
  unfold py_index.
  destruct ((0 <=? _) && _); [apply lookup_nil | reflexivity].
Qed.

Lemma slice_bound_beyond (len n : Z) : 0 <= len < n -> slice_bound len (- n) = 0.
Proof.
  intros H. unfold slice_bound.
  assert (E : (- n <? 0) = true) by (apply Z.ltb_lt; lia).
  rewrite E. lia.
Qed.

Lemma py_slice_rev_to_whole {A} (l : list A) :
  py_slice_rev_to l (- Z.of_nat (length l) - 1) = rev l.
Proof.
  unfold py_slice_rev_to.
  assert (E1 : (- Z.of_nat (length l) - 1 <? 0) = true) by (apply Z.ltb_lt; lia).
  assert (E2 : (- Z.of_nat (length l) - 1 + Z.of_nat (length l) <? 0) = true)
    by (apply Z.ltb_lt; lia).
  rewrite E1, E2. reflexivity.
Qed.

(** ** The stack primitives *)

Lemma pop_last (fr : Frame) (h : heap) (s : list value) (v : value) :
  data_stack fr = s ++ [v] ->
  pop (fr, h) = (Ok v, (set_data_stack s fr, h)).
Proof.
  intros E. unfold pop, bind, get_frame, set_frame, ret. simpl.
  rewrite E, py_index_last, removelast_last. reflexivity.
Qed.

Lemma pop_empty (fr : Frame) (h : heap) :
  data_stack fr = [] -> pop (fr, h) = (Raise IndexError, (fr, h)).
Proof.
  intros E. unfold pop, bind, get_frame, raise. simpl.
  rewrite E, py_index_nil. reflexivity.
Qed.

Lemma peek_last (fr : Frame) (h : heap) (s : list value) (v : value) :
  data_stack fr = s ++ [v] ->
  peek (fr, h) = (Ok v, (fr, h)).
Proof.
  intros E. unfold peek, bind, get_frame, ret. simpl.
  rewrite E, py_index_last. reflexivity.
Qed.

Lemma push_app (fr : Frame) (h : heap) (values : list value) :
  push values (fr, h) = (Ok tt, (set_data_stack (data_stack fr ++ values) fr, h)).
Proof. reflexivity. Qed.

Lemma set_data_stack_id (fr : Frame) : set_data_stack (data_stack fr) fr = fr.
Proof. destruct fr; reflexivity. Qed.

Lemma set_data_stack_twice (s s' : list value) (fr : Frame) :
  set_data_stack s (set_data_stack s' fr) = set_data_stack s fr.
Proof. reflexivity. Qed.

(** C10. When [n] exceeds the depth of the operand stack, [popn n] does not
    fail: it returns every value of the stack, deepest first (there are
    fewer than [n] of them), and leaves the stack empty. *)
Theorem popn_beyond_depth (n : Z) (fr : Frame) (h : heap) :
  Z.of_nat (length (data_stack fr)) < n ->
  popn n (fr, h) = (Ok (data_stack fr), (set_data_stack [] fr, h)).
Proof.
  intros Hn. unfold popn.
  assert (E : (n >? 0) = true) by (apply Z.gtb_lt; lia).
  rewrite E. unfold bind, get_frame, set_frame, ret. simpl.
  unfold py_slice_from, py_del_slice_from.
  rewrite slice_bound_beyond by lia. reflexivity.
Qed.

Lemma popn_beyond_depth_witness :
  let fr := set_data_stack [VInt 1; VInt 2]
              (Frame_init (Code 0 [] [] []) 0%nat 0%nat 0%nat) in
  popn 5 (fr, []) = (Ok [VInt 1; VInt 2], (set_data_stack [] fr, [])).
Proof.
  intros fr.
  apply (popn_beyond_depth 5 fr []). simpl. lia.
Defined.

(** ** Unpacking *)

Lemma py_len_sequence (seq : value) (items : list value) (fr : Frame) (h : heap) :
  is_sequence seq h items ->
  py_len seq (fr, h) = (Ok (Z.of_nat (length items)), (fr, h)).
Proof.
  intros [-> | (l & -> & Hl)]; [reflexivity|].
  unfold py_len, read_list, bind, get_heap, ret. simpl. rewrite Hl. reflexivity.
Qed.

Lemma py_elements_sequence (seq : value) (items : list value) (fr : Frame) (h : heap) :
  is_sequence seq h items ->
  py_elements seq (fr, h) = (Ok items, (fr, h)).
Proof.
  intros [-> | (l & -> & Hl)]; [reflexivity|].
  unfold py_elements, read_list, bind, get_heap, ret. simpl. rewrite Hl. reflexivity.
Qed.

(** C9. With a Sequence of [m] elements on top of the stack, unpacking [n]
    values succeeds exactly when [m = n]: it then pops the Sequence and
    pushes its elements in reverse, so that the first element is on top;
    when [m <> n] the assertion fails ([AssertionError]) and the stack is as
    it was. *)
Theorem unpack_sequence_iff_length (fr : Frame) (h : heap) (s : list value)
    (seq : value) (items : list value) (n : Z) :
  data_stack fr = s ++ [seq] ->
  is_sequence seq h items ->
  (Z.of_nat (length items) = n ->
     unpack_sequence (VInt n) (fr, h)
     = (Ok tt, (set_data_stack (s ++ rev items) fr, h)))
  /\ (Z.of_nat (length items) <> n ->
     unpack_sequence (VInt n) (fr, h) = (Raise AssertionError, (fr, h)))
  /\ ((exists st, unpack_sequence (VInt n) (fr, h) = (Ok tt, st))
      <-> Z.of_nat (length items) = n).
Proof.
  intros Hs Hseq.
  assert (Hyes : Z.of_nat (length items) = n ->
     unpack_sequence (VInt n) (fr, h)
     = (Ok tt, (set_data_stack (s ++ rev items) fr, h))).
  { intros <-. unfold unpack_sequence, bind at 1. simpl.
    rewrite Hs, py_index_last. unfold bind at 1.
    rewrite (py_len_sequence _ _ _ _ Hseq). simpl.
    rewrite Z.eqb_refl. simpl. unfold bind at 1.
    rewrite (pop_last _ _ _ _ Hs). unfold bind at 1.
    rewrite (py_elements_sequence _ _ _ _ Hseq).
    rewrite py_slice_rev_to_whole. reflexivity. }
  assert (Hno : Z.of_nat (length items) <> n ->
     unpack_sequence (VInt n) (fr, h) = (Raise AssertionError, (fr, h))).
  { intros Hne. unfold unpack_sequence, bind at 1. simpl.
    rewrite Hs, py_index_last. unfold bind at 1.
    rewrite (py_len_sequence _ _ _ _ Hseq). simpl.
    apply Z.eqb_neq in Hne. rewrite Hne. reflexivity. }
  split; [exact Hyes|]. split; [exact Hno|].
  split.
  - intros [st Hst].
    destruct (Z.eq_dec (Z.of_nat (length items)) n) as [E|E]; [exact E|].
    rewrite (Hno E) in Hst. discriminate.
  - intros E. eexists. exact (Hyes E).
Qed.

Lemma unpack_sequence_iff_length_witness :
  let fr := set_data_stack [VInt 0; VTuple [VInt 1; VInt 2; VInt 3]]
              (Frame_init (Code 0 [] [] []) 0%nat 0%nat 0%nat) in
  unpack_sequence (VInt 3) (fr, [])
  = (Ok tt, (set_data_stack [VInt 0; VInt 3; VInt 2; VInt 1] fr, []))
  /\ unpack_sequence (VInt 2) (fr, []) = (Raise AssertionError, (fr, [])).
Proof.
  intros fr.
  pose proof (unpack_sequence_iff_length fr [] [VInt 0]
                (VTuple [VInt 1; VInt 2; VInt 3]) [VInt 1; VInt 2; VInt 3] 3
                eq_refl (or_introl eq_refl)) as H3.
  pose proof (unpack_sequence_iff_length fr [] [VInt 0]
                (VTuple [VInt 1; VInt 2; VInt 3]) [VInt 1; VInt 2; VInt 3] 2
                eq_refl (or_introl eq_refl)) as H2.
  split.
  - apply (proj1 H3). reflexivity.
  - apply (proj1 (proj2 H2)). simpl. lia.
Defined.

(** ** Name resolution *)

Lemma read_dict_at (l : loc) (d : gmap string value) (fr : Frame) (h : heap) :
  h !! l = Some (ODict d) ->
  read_dict l (fr, h) = (Ok d, (fr, h)).
Proof.
  intros Hl. unfold read_dict, bind, get_heap, ret. simpl. rewrite Hl. reflexivity.
Qed.

Lemma write_dict_at (l : loc) (d d' : gmap string value) (fr : Frame) (h : heap) :
  h !! l = Some (ODict d) ->
  write_dict l d' (fr, h) = (Ok tt, (fr, <[l := ODict d']> h)).
Proof.
  intros Hl. unfold write_dict, bind, get_heap, set_heap. simpl. rewrite Hl. reflexivity.
Qed.

(** C6. [load_name x] looks [x] up in the locals, then the globals, then the
    builtins, and pushes the first binding it finds; when none of the three
    binds [x] it raises the [NameError] that names [x] and leaves the stack
    as it was (so it does not push [None] in place of the missing value). *)
Theorem load_name_resolution (fr : Frame) (h : heap) (x : string)
    (L G B : gmap string value) :
  h !! locals fr = Some (ODict L) ->
  h !! globals fr = Some (ODict G) ->
  h !! builtins fr = Some (ODict B) ->
  load_name (VStr x) (fr, h)
  = match L !! x, G !! x, B !! x with
    | Some v, _, _ | None, Some v, _ | None, None, Some v =>
        (Ok tt, (set_data_stack (data_stack fr ++ [v]) fr, h))
    | None, None, None =>
        (Raise (NameError ("Name '" +:+ x +:+ "' not in scope.")), (fr, h))
    end.
Proof.
  intros HL HG HB.
  unfold load_name, bind at 1. simpl. unfold bind at 1. simpl.
  unfold bind at 1. rewrite (read_dict_at _ _ _ _ HL).
  destruct (L !! x) as [v|]; [reflexivity|].
  unfold bind at 1. rewrite (read_dict_at _ _ _ _ HG).
  destruct (G !! x) as [v|]; [reflexivity|].
  unfold bind at 1. rewrite (read_dict_at _ _ _ _ HB).
  destruct (B !! x) as [v|]; reflexivity.
Qed.

Lemma load_name_resolution_witness :
  let fr := Frame_init (Code 0 [] [] []) 0%nat 1%nat 2%nat in
  let h := [ODict {[ "x" := VInt 0; "z" := VInt 5 ]};
            ODict {[ "x" := VInt 1; "y" := VInt 3 ]};
            ODict {[ "x" := VInt 2 ]}] in
  load_name (VStr "x") (fr, h) = (Ok tt, (set_data_stack [VInt 2] fr, h))
  /\ load_name (VStr "y") (fr, h) = (Ok tt, (set_data_stack [VInt 3] fr, h))
  /\ load_name (VStr "z") (fr, h) = (Ok tt, (set_data_stack [VInt 5] fr, h))
  /\ load_name (VStr "w") (fr, h)
     = (Raise (NameError "Name 'w' not in scope."), (fr, h)).
Proof.
  intros fr h.
  refine (conj _ (conj _ (conj _ _))).
  - exact (load_name_resolution fr h "x" _ _ _ eq_refl eq_refl eq_refl).
  - exact (load_name_resolution fr h "y" _ _ _ eq_refl eq_refl eq_refl).
  - exact (load_name_resolution fr h "z" _ _ _ eq_refl eq_refl eq_refl).
  - exact (load_name_resolution fr h "w" _ _ _ eq_refl eq_refl eq_refl).
Defined.

(** ** The loop protocol *)

Lemma get_iter_list (fr : Frame) (h : heap) (s : list value) (l : loc) :
  data_stack fr = s ++ [VList l] ->
  get_iter VNone (fr, h)
  = (Ok tt, (set_data_stack (s ++ [VIter (length h)]) fr,
             h ++ [OListIter (Some l) 0])).
Proof.
  intros Hs. unfold get_iter, bind at 1. rewrite (pop_last _ _ _ _ Hs).
  reflexivity.
Qed.

Lemma for_iter_next (fr : Frame) (h : heap) (s : list value) (it l : loc)
    (j : nat) (items : list value) (x : value) (argval : value) :
  data_stack fr = s ++ [VIter it] ->
  h !! it = Some (OListIter (Some l) j) ->
  h !! l = Some (OList items) ->
  items !! j = Some x ->
  for_iter argval (fr, h)
  = (Ok tt, (set_data_stack (s ++ [VIter it; x]) fr,
             <[it := OListIter (Some l) (S j)]> h)).
Proof.
  intros Hs Hit Hl Hx.
  unfold for_iter, bind at 1. rewrite (peek_last _ _ _ _ Hs).
  unfold try_except, bind at 1, py_next, bind at 1. simpl. rewrite Hit.
  unfold bind at 1, read_list, bind at 1. simpl. rewrite Hl. simpl.
  rewrite Hx. unfold bind, set_heap, ret, push, get_frame, set_frame. simpl.
  rewrite Hs, <- app_assoc. reflexivity.
Qed.

Lemma for_iter_exhausted (fr : Frame) (h : heap) (s : list value) (it l : loc)
    (j : nat) (items : list value) (target : Z) (exit : nat) :
  data_stack fr = s ++ [VIter it] ->
  h !! it = Some (OListIter (Some l) j) ->
  h !! l = Some (OList items) ->
  items !! j = None ->
  offset_to_index fr !! target = Some exit ->
  for_iter (VInt target) (fr, h)
  = (Ok tt, (set_ind_op exit fr, <[it := OListIter None j]> h)).
Proof.
  intros Hs Hit Hl Hx Ht.
  unfold for_iter, bind at 1. rewrite (peek_last _ _ _ _ Hs).
  unfold try_except, bind at 1, py_next, bind at 1. simpl. rewrite Hit.
  unfold bind at 1, read_list, bind at 1. simpl. rewrite Hl. simpl.
  rewrite Hx. unfold bind at 1. simpl.
  unfold jump_to, jump_target, bind, get_frame, set_frame, ret. simpl.
  rewrite Ht. reflexivity.
Qed.

Lemma end_for_pops (fr : Frame) (h : heap) (s : list value) (v : value) :
  data_stack fr = s ++ [v] ->
  end_for VNone (fr, h) = (Ok tt, (set_data_stack s fr, h)).
Proof.
  intros Hs. unfold end_for, pop_top, bind. rewrite (pop_last _ _ _ _ Hs).
  reflexivity.
Qed.

Lemma heap_insert_last (h : heap) (o o' : obj) :
  <[length h := o']> (h ++ [o]) = h ++ [o'].
Proof.
  rewrite insert_app_r_alt by lia.
  replace (length h - length h)%nat with 0%nat by lia. reflexivity.
Qed.

Lemma heap_lookup_last (h : heap) (o : obj) : (h ++ [o]) !! length h = Some o.
Proof. apply list_lookup_middle. reflexivity. Qed.

(** C8. A loop over a list of [k] elements.  [get_iter] replaces the list
    on top of the stack by a fresh iterator.  While the iterator has yielded
    [j < k] elements, [for_iter] leaves it where it is and pushes element
    [j] above it; so [k] turns of a loop that consumes the value go through.
    The advance that follows them (the first one when [k = 0]) pushes
    nothing, sets [ind_op] to the index of the exit offset and leaves the
    iterator on top, where [end_for] pops it. *)
Theorem loop_protocol (fr : Frame) (h : heap) (s : list value) (l : loc)
    (items : list value) (target : Z) (exit : nat) :
  data_stack fr = s ++ [VList l] ->
  h !! l = Some (OList items) ->
  offset_to_index fr !! target = Some exit ->
  let it := length h in
  let k := length items in
  let looping := set_data_stack (s ++ [VIter it]) fr in
  let cursor (seq : option loc) (j : nat) : heap := h ++ [OListIter seq j] in
  get_iter VNone (fr, h) = (Ok tt, (looping, cursor (Some l) 0%nat))
  /\ (forall j x, items !! j = Some x ->
        for_iter (VInt target) (looping, cursor (Some l) j)
        = (Ok tt, (set_data_stack (s ++ [VIter it; x]) fr,
                   cursor (Some l) (S j))))
  /\ (forall n, (n <= k)%nat ->
        advance_and_consume n (VInt target) (looping, cursor (Some l) 0%nat)
        = (Ok tt, (looping, cursor (Some l) n)))
  /\ for_iter (VInt target) (looping, cursor (Some l) k)
     = (Ok tt, (set_ind_op exit looping, cursor None k))
  /\ end_for VNone (set_ind_op exit looping, cursor None k)
     = (Ok tt, (set_ind_op exit (set_data_stack s fr), cursor None k)).
Proof.
  intros Hs Hl Ht it k looping cursor.
  assert (Hlist : forall seq j, cursor seq j !! l = Some (OList items)).
  { intros seq j. unfold cursor. apply lookup_app_l_Some. exact Hl. }
  assert (Hstep : forall j x, items !! j = Some x ->
        for_iter (VInt target) (looping, cursor (Some l) j)
        = (Ok tt, (set_data_stack (s ++ [VIter it; x]) fr,
                   cursor (Some l) (S j)))).
  { intros j x Hx.
    rewrite (for_iter_next looping (cursor (Some l) j) s it l j items x);
      [ | reflexivity | apply heap_lookup_last | apply Hlist | exact Hx ].
    unfold cursor, it. rewrite heap_insert_last. reflexivity. }
  split; [exact (get_iter_list fr h s l Hs)|].
  split; [exact Hstep|].
  split.
  { induction n as [|n IH]; intros Hn; [reflexivity|].
    simpl. unfold bind at 1. rewrite IH by lia.
    destruct (lookup_lt_is_Some_2 items n ltac:(unfold k in Hn; lia)) as [x Hx].
    unfold bind at 1. rewrite (Hstep n x Hx).
    unfold pop_top, bind.
    rewrite (pop_last _ _ (s ++ [VIter it]) x)
      by (simpl; rewrite <- app_assoc; reflexivity).
    reflexivity. }
  split.
  { rewrite (for_iter_exhausted looping (cursor (Some l) k) s it l k items target exit);
      [ | reflexivity | apply heap_lookup_last | apply Hlist
        | apply lookup_ge_None_2; unfold k; lia | exact Ht ].
    unfold cursor, it. rewrite heap_insert_last. reflexivity. }
  exact (end_for_pops (set_ind_op exit looping) (cursor None k) s (VIter it)
           eq_refl).
Qed.

Lemma loop_protocol_witness :
  let fr := set_program [] {[ 20 := 7%nat ]}
              (set_data_stack [VInt 9; VList 0%nat]
                 (Frame_init (Code 0 [] [] []) 0%nat 0%nat 0%nat)) in
  let h := [OList [VInt 10; VInt 11]] in
  let looping := set_data_stack [VInt 9; VIter 1%nat] fr in
  advance_and_consume 2%nat (VInt 20) (looping, h ++ [OListIter (Some 0%nat) 0%nat])
  = (Ok tt, (looping, h ++ [OListIter (Some 0%nat) 2%nat]))
  /\ for_iter (VInt 20) (looping, h ++ [OListIter (Some 0%nat) 2%nat])
     = (Ok tt, (set_ind_op 7%nat looping, h ++ [OListIter None 2%nat])).
Proof.
  intros fr h looping.
  pose proof (loop_protocol fr h [VInt 9] 0%nat [VInt 10; VInt 11] 20 7%nat
                eq_refl eq_refl eq_refl) as H.
  split.
  - apply (proj1 (proj2 (proj2 H)) 2%nat). simpl. lia.
  - exact (proj1 (proj2 (proj2 (proj2 H)))).
Defined.

(** ** Binding the parameters of a call *)

Lemma f_frame_of_parse_args (b g l : loc) (c : CodeType) (defaults : option value)
    (args : list value) (kwargs parsed L : gmap string value)
    (fr : Frame) (h : heap) :
  parse_args (Closure b g l (VCode c) defaults) args kwargs (fr, h)
    = (Ok parsed, (fr, h)) ->
  h !! l = Some (ODict L) ->
  f_frame (Closure b g l (VCode c) defaults) args kwargs (fr, h)
  = (Ok (Frame_init c b g (length h)), (fr, h ++ [ODict (parsed ∪ L)])).
Proof.
  intros Hp Hl. unfold f_frame, bind at 1. rewrite Hp.
  unfold bind at 1. rewrite (read_dict_at _ _ _ _ Hl). reflexivity.
Qed.

(** C7. A function of three parameters whose defaults [(d0, d1)] cover the
    last two: called with the one positional argument [a0] it binds
    [(a0, d0, d1)]; called with [a0] and the third parameter given by
    keyword it binds [(a0, d0, kw_value)].  The bindings are those of
    [parsed_args], and of the locals of the child frame. *)
Theorem three_parameters_two_defaults (b g l : loc) (x0 x1 x2 : string)
    (more : list string) (names : list string) (ins : list Instruction)
    (a0 d0 d1 kw_value : value) (L : gmap string value)
    (fr : Frame) (h : heap) :
  x0 <> x1 -> x0 <> x2 -> x1 <> x2 ->
  h !! l = Some (ODict L) ->
  let c := Code 3 (x0 :: x1 :: x2 :: more) names ins in
  let fn := Closure b g l (VCode c) (Some (VTuple [d0; d1])) in
  (exists parsed,
      parse_args fn [a0] ∅ (fr, h) = (Ok parsed, (fr, h))
      /\ parsed !! x0 = Some a0 /\ parsed !! x1 = Some d0
      /\ parsed !! x2 = Some d1
      /\ f_frame fn [a0] ∅ (fr, h)
         = (Ok (Frame_init c b g (length h)), (fr, h ++ [ODict (parsed ∪ L)]))
      /\ (parsed ∪ L) !! x0 = Some a0 /\ (parsed ∪ L) !! x1 = Some d0
      /\ (parsed ∪ L) !! x2 = Some d1)
  /\ (exists parsed,
      parse_args fn [a0] {[ x2 := kw_value ]} (fr, h) = (Ok parsed, (fr, h))
      /\ parsed !! x0 = Some a0 /\ parsed !! x1 = Some d0
      /\ parsed !! x2 = Some kw_value
      /\ f_frame fn [a0] {[ x2 := kw_value ]} (fr, h)
         = (Ok (Frame_init c b g (length h)), (fr, h ++ [ODict (parsed ∪ L)]))
      /\ (parsed ∪ L) !! x0 = Some a0 /\ (parsed ∪ L) !! x1 = Some d0
      /\ (parsed ∪ L) !! x2 = Some kw_value).
Proof.
  intros H01 H02 H12 Hl c fn.
  assert (Hparse : forall kwargs,
    parse_args fn [a0] kwargs (fr, h)
    = (Ok (kwargs ∪ <[x2 := d1]> (<[x1 := d0]> (<[x0 := a0]> ∅))), (fr, h)))
    by reflexivity.
  split.
  - eexists. split; [apply Hparse|].
    assert (E0 : (∅ ∪ <[x2 := d1]> (<[x1 := d0]> (<[x0 := a0]> (∅ : gmap string value))))
                 !! x0 = Some a0)
      by (rewrite (left_id_L ∅ (∪)); simplify_map_eq; reflexivity).
    assert (E1 : (∅ ∪ <[x2 := d1]> (<[x1 := d0]> (<[x0 := a0]> (∅ : gmap string value))))
                 !! x1 = Some d0)
      by (rewrite (left_id_L ∅ (∪)); simplify_map_eq; reflexivity).
    assert (E2 : (∅ ∪ <[x2 := d1]> (<[x1 := d0]> (<[x0 := a0]> (∅ : gmap string value))))
                 !! x2 = Some d1)
      by (rewrite (left_id_L ∅ (∪)); simplify_map_eq; reflexivity).
    repeat split; try assumption.
    + apply f_frame_of_parse_args; [apply Hparse | exact Hl].
    + apply lookup_union_Some_l, E0.
    + apply lookup_union_Some_l, E1.
    + apply lookup_union_Some_l, E2.
  - eexists. split; [apply Hparse|].
    assert (E0 : ({[ x2 := kw_value ]}
                  ∪ <[x2 := d1]> (<[x1 := d0]> (<[x0 := a0]> (∅ : gmap string value))))
                 !! x0 = Some a0).
    { rewrite lookup_union_r by (apply lookup_singleton_ne; congruence).
      simplify_map_eq; reflexivity. }
    assert (E1 : ({[ x2 := kw_value ]}
                  ∪ <[x2 := d1]> (<[x1 := d0]> (<[x0 := a0]> (∅ : gmap string value))))
                 !! x1 = Some d0).
    { rewrite lookup_union_r by (apply lookup_singleton_ne; congruence).
      simplify_map_eq; reflexivity. }
    assert (E2 : ({[ x2 := kw_value ]}
                  ∪ <[x2 := d1]> (<[x1 := d0]> (<[x0 := a0]> (∅ : gmap string value))))
                 !! x2 = Some kw_value).
    { apply lookup_union_Some_l, lookup_singleton_eq. }
    repeat split; try assumption.
    + apply f_frame_of_parse_args; [apply Hparse | exact Hl].
    + apply lookup_union_Some_l, E0.
    + apply lookup_union_Some_l, E1.
    + apply lookup_union_Some_l, E2.
Qed.

Lemma three_parameters_two_defaults_witness :
  let c := Code 3 ["a"; "b"; "c"] [] [] in
  let fn := Closure 0%nat 0%nat 0%nat (VCode c) (Some (VTuple [VInt 10; VInt 20])) in
  let fr := Frame_init c 0%nat 0%nat 0%nat in
  let h := [ODict ∅] in
  (exists parsed,
      parse_args fn [VInt 1] ∅ (fr, h) = (Ok parsed, (fr, h))
      /\ parsed !! "a" = Some (VInt 1) /\ parsed !! "b" = Some (VInt 10)
      /\ parsed !! "c" = Some (VInt 20))
  /\ (exists parsed,
      parse_args fn [VInt 1] {[ "c" := VInt 30 ]} (fr, h) = (Ok parsed, (fr, h))
      /\ parsed !! "a" = Some (VInt 1) /\ parsed !! "b" = Some (VInt 10)
      /\ parsed !! "c" = Some (VInt 30)).
Proof.
  intros c fn fr h.
  destruct (three_parameters_two_defaults 0%nat 0%nat 0%nat "a" "b" "c" [] [] []
              (VInt 1) (VInt 10) (VInt 20) (VInt 30) ∅ fr h
              ltac:(discriminate) ltac:(discriminate) ltac:(discriminate)
              eq_refl)
    as [(p1 & Hp1 & Ha1 & Hb1 & Hc1 & _) (p2 & Hp2 & Ha2 & Hb2 & Hc2 & _)].
  split.
  - exists p1. exact (conj Hp1 (conj Ha1 (conj Hb1 Hc1))).
  - exists p2. exact (conj Hp2 (conj Ha2 (conj Hb2 Hc2))).
Defined.

(** ** The dispatcher *)

Lemma run_loop_step (fuel : nat) (st : state) (instr : Instruction) :
  instructions (fst st) !! ind_op (fst st) = Some instr ->
  run_loop (S fuel) st
  = match run_body (call_function fuel) instr st with
    | (Ok (Some v), st') => (Ok v, st')
    | (Ok None, st') => run_loop fuel st'
    | (Raise e, st') => (Raise e, st')
    | (Unmodelled, st') => (Unmodelled, st')
    | (OutOfFuel, st') => (OutOfFuel, st')
    end.
Proof. intros H. simpl. rewrite H. reflexivity. Qed.

Lemma run_loop_end (fuel : nat) (st : state) :
  instructions (fst st) !! ind_op (fst st) = None ->
  run_loop (S fuel) st = (Ok VNone, st).
Proof. intros H. simpl. rewrite H. reflexivity. Qed.

(** the half of the return family that does return: at a [RETURN_VALUE] the
    loop ends at once and [run] yields the popped top of the stack *)
Lemma return_value_ends_run (fuel : nat) (fr : Frame) (h : heap)
    (a : option Z) (operand : value) (off : Z) (s : list value) (v : value) :
  instructions fr !! ind_op fr = Some (Instr "RETURN_VALUE" a operand off) ->
  data_stack fr = s ++ [v] ->
  run_loop (S fuel) (fr, h) = (Ok v, (set_data_stack s fr, h)).
Proof.
  intros Hi Hs. rewrite (run_loop_step fuel (fr, h) _ Hi).
  unfold run_body. simpl. unfold bind at 1. simpl.
  unfold bind. rewrite (pop_last _ _ _ _ Hs). reflexivity.
Qed.

(** C2 (the code departs from it).  [RETURN_CONST] does not end the loop:
    its handler stores the constant in the attribute [return_value] of the
    frame, the loop goes on with the next instruction, and [run] never reads
    that attribute.  So a unit that is one [RETURN_CONST 7] yields [None],
    and in [RETURN_CONST 7; LOAD_CONST 8; RETURN_VALUE] the two later
    instructions run and the unit yields 8. *)
Theorem return_const_does_not_end_run :
  (forall call_value a const off fr h,
      run_body call_value (Instr "RETURN_CONST" a const off) (fr, h)
      = (Ok None, (set_ind_op (ind_op fr + 1) (set_return_value const fr), h)))
  /\ fst (VirtualMachine_run 10
            (Code 0 [] [] [Instr "RETURN_CONST" (Some 1) (VInt 7) 0])
            0%nat [ODict ∅])
     = Ok VNone
  /\ fst (VirtualMachine_run 10
            (Code 0 [] []
               [Instr "RETURN_CONST" (Some 1) (VInt 7) 0;
                Instr "LOAD_CONST" (Some 2) (VInt 8) 2;
                Instr "RETURN_VALUE" None VNone 4])
            0%nat [ODict ∅])
     = Ok (VInt 8).
Proof.
  split; [|split].
  - intros call_value a const off fr h.
    unfold run_body. simpl. unfold bind. simpl.
    rewrite Nat.eqb_refl. reflexivity.
  - vm_compute. reflexivity.
  - vm_compute. reflexivity.
Qed.

(** C5 (the code departs from it).  The dispatcher looks the handler up
    under the lower-cased name of the opcode, [pop_jump_if_true]; the class
    defines the handler as [pop_jump_is_true].  The lookup fails with
    [AttributeError] before anything is popped or any jump is made. *)
Theorem pop_jump_if_true_has_no_handler :
  forall call_value a target off st,
    run_body call_value (Instr "POP_JUMP_IF_TRUE" a target off) st
    = (Raise AttributeError, st).
Proof. intros call_value a target off [fr h]. reflexivity. Qed.

(** what the handler would do if the dispatcher reached it *)
Lemma pop_jump_is_true_handler (fr : Frame) (h : heap) (s : list value)
    (v : value) (b : bool) (target : Z) (i : nat) :
  data_stack fr = s ++ [v] ->
  py_bool v (set_data_stack s fr, h) = (Ok b, (set_data_stack s fr, h)) ->
  offset_to_index fr !! target = Some i ->
  pop_jump_is_true (VInt target) (fr, h)
  = (Ok tt, ((if b then set_ind_op i (set_data_stack s fr)
              else set_data_stack s fr), h)).
Proof.
  intros Hs Hb Ht. unfold pop_jump_is_true, bind at 1.
  rewrite (pop_last _ _ _ _ Hs). unfold bind at 1. rewrite Hb.
  destruct b; [|reflexivity].
  unfold jump_to, jump_target, bind, get_frame, set_frame, ret. simpl.
  rewrite Ht. reflexivity.
Qed.

Example pop_jump_if_true_run :
  fst (VirtualMachine_run 10
         (Code 0 [] []
            [Instr "LOAD_CONST" (Some 0) (VBool true) 0;
             Instr "POP_JUMP_IF_TRUE" (Some 1) (VInt 6) 2;
             Instr "LOAD_CONST" (Some 1) (VInt 1) 4;
             Instr "LOAD_CONST" (Some 2) (VInt 2) 6;
             Instr "RETURN_VALUE" None VNone 8])
         0%nat [ODict ∅])
  = Raise AttributeError.
Proof. vm_compute. reflexivity. Qed.

(** ** Attribute lookup *)

(** C4, as the code has it.  With the method bit set: when the attribute
    resolves on the receiver and looking up its [__get__] raises
    [AttributeError], [load_attr] ends normally with [None] and then the raw
    attribute pushed; when the attribute is absent from the receiver, the
    lookup in the handler raises [AttributeError] again, after [None] was
    pushed, and that error leaves [load_attr]. *)
Theorem load_attr_fallback (fr : Frame) (h : heap) (s : list value)
    (v : value) (namei : Z) (name : string) :
  data_stack fr = s ++ [v] ->
  py_index (co_names (code fr)) (Z.shiftr namei 1) = Some name ->
  Z.land namei 1 = 1 ->
  (forall attr,
      (forall st, py_getattr v name st = (Ok attr, st)) ->
      (forall st, py_descr_get attr v st = (Raise AttributeError, st)) ->
      load_attr (VInt namei) (fr, h)
      = (Ok tt, (set_data_stack (s ++ [VNone; attr]) fr, h)))
  /\ ((forall st, py_getattr v name st = (Raise AttributeError, st)) ->
      load_attr (VInt namei) (fr, h)
      = (Raise AttributeError, (set_data_stack (s ++ [VNone]) fr, h))).
Proof.
  intros Hs Hname Hbit.
  assert (Hstart :
            load_attr (VInt namei) (fr, h)
            = try_except
                (do attr <- py_getattr v name;
                 do method <- py_descr_get attr v;
                 do _ <- push [method];
                 push [v])
                is_AttributeError
                (do _ <- push [VNone];
                 do raw <- py_getattr v name;
                 push [raw])
                (set_data_stack s fr, h)).
  { unfold load_attr, bind at 1. rewrite (pop_last _ _ _ _ Hs).
    unfold bind at 1. simpl. unfold bind at 1. simpl.
    rewrite Hname, Hbit. reflexivity. }
  split.
  - intros attr Hget Hdescr. rewrite Hstart.
    unfold try_except, bind at 1. rewrite Hget.
    unfold bind at 1. rewrite Hdescr. simpl.
    unfold bind at 1. simpl. unfold bind at 1. rewrite Hget.
    unfold push, bind, get_frame, set_frame. simpl.
    rewrite <- app_assoc. reflexivity.
  - intros Hget. rewrite Hstart.
    unfold try_except, bind at 1. rewrite Hget. simpl.
    unfold bind at 1. simpl. unfold bind at 1. rewrite Hget. reflexivity.
Qed.

Lemma load_attr_fallback_witness :
  let c := Code 0 [] ["size"; "area"] [] in
  let receiver := VObject [("size", VInt 3)] in
  let fr := set_data_stack [VInt 0; receiver] (Frame_init c 0%nat 0%nat 0%nat) in
  load_attr (VInt 1) (fr, [])
  = (Ok tt, (set_data_stack [VInt 0; VNone; VInt 3] fr, []))
  /\ load_attr (VInt 3) (fr, [])
     = (Raise AttributeError, (set_data_stack [VInt 0; VNone] fr, [])).
Proof.
  intros c receiver fr.
  split.
  - apply (proj1 (load_attr_fallback fr [] [VInt 0] receiver 1 "size"
                    eq_refl eq_refl eq_refl) (VInt 3)).
    + intros st. reflexivity.
    + intros st. reflexivity.
  - apply (proj2 (load_attr_fallback fr [] [VInt 0] receiver 3 "area"
                    eq_refl eq_refl eq_refl)).
    intros st. reflexivity.
Defined.

(** C4 as the claim states it fails: on a receiver without the attribute the
    error leaves [load_attr]. *)
Lemma load_attr_absent_attribute_is_fatal : ~ load_attr_always_falls_back.
Proof.
  intros Hclaim.
  pose (c := Code 0 [] ["area"] []).
  pose (fr := set_data_stack [VObject []] (Frame_init c 0%nat 0%nat 0%nat)).
  destruct (Hclaim fr [] [] (VObject []) 1 "area" eq_refl eq_refl eq_refl)
    as (raw & st' & Hrun & _).
  - intros st attr st' Hget. discriminate Hget.
  - discriminate Hrun.
Qed.

(** ** Calls with too few arguments *)

Lemma bind_parameter_tuple (c : CodeType) (ds args : list value)
    (parsed : gmap string value) (i : nat) (st : state) :
  (i < co_argcount c)%nat ->
  (co_argcount c <= length (co_varnames c))%nat ->
  exists parsed',
    bind_parameter c (Some (VTuple ds)) args parsed i st = (Ok parsed', st)
    /\ ((parsed' = parsed /\ (length args <= i)%nat
         /\ Z.of_nat i < Z.of_nat (co_argcount c) - Z.of_nat (length ds))
        \/ (exists x v, co_varnames c !! i = Some x
                        /\ parsed' = <[x := v]> parsed
                        /\ ((i < length args)%nat
                            \/ Z.of_nat (co_argcount c) - Z.of_nat (length ds)
                               <= Z.of_nat i))).
Proof.
  intros Hi Hnames.
  destruct (lookup_lt_is_Some_2 (co_varnames c) i ltac:(lia)) as [x Hx].
  unfold bind_parameter.
  destruct (args !! i) as [a|] eqn:Ha.
  - exists (<[x := a]> parsed). split.
    + unfold bind, varname. rewrite Hx. reflexivity.
    + right. exists x, a. split; [exact Hx|]. split; [reflexivity|].
      left. apply lookup_lt_Some in Ha. exact Ha.
  - apply lookup_ge_None_1 in Ha.
    unfold bind at 1. simpl. unfold bind at 1. simpl.
    destruct (Z.of_nat i >=? Z.of_nat (co_argcount c) - Z.of_nat (length ds)) eqn:E.
    + assert (Hge : Z.of_nat (co_argcount c) - Z.of_nat (length ds) <= Z.of_nat i)
        by (apply Z.geb_le in E; lia).
      set (k := Z.of_nat i - (Z.of_nat (co_argcount c) - Z.of_nat (length ds))).
      assert (Hk : 0 <= k < Z.of_nat (length ds)) by (unfold k; lia).
      destruct (lookup_lt_is_Some_2 ds (Z.to_nat k) ltac:(lia)) as [v Hv].
      exists (<[x := v]> parsed). split.
      * unfold bind at 1, py_getitem, bind at 1. simpl. unfold py_index.
        assert (E0 : (k <? 0) = false) by (apply Z.ltb_ge; lia).
        assert (E1 : (0 <=? k) = true) by (apply Z.leb_le; lia).
        assert (E2 : (k <? Z.of_nat (length ds)) = true) by (apply Z.ltb_lt; lia).
        rewrite E0, E1, E2. simpl. rewrite Hv. simpl.
        unfold bind, varname. rewrite Hx. reflexivity.
      * right. exists x, v. split; [exact Hx|]. split; [reflexivity|].
        right. exact Hge.
    + exists parsed. split; [reflexivity|]. left.
      split; [reflexivity|]. split; [exact Ha|].
      rewrite Z.geb_leb in E. apply Z.leb_gt in E. lia.
Qed.

Lemma bind_parameters_tuple (c : CodeType) (ds args : list value)
    (range : list nat) (parsed : gmap string value) (st : state) :
  Forall (fun i => (i < co_argcount c)%nat) range ->
  (co_argcount c <= length (co_varnames c))%nat ->
  exists parsed',
    bind_parameters c (Some (VTuple ds)) args parsed range st = (Ok parsed', st)
    /\ forall x,
         parsed' !! x = parsed !! x
         \/ exists i, i ∈ range /\ co_varnames c !! i = Some x
                      /\ ((i < length args)%nat
                          \/ Z.of_nat (co_argcount c) - Z.of_nat (length ds)
                             <= Z.of_nat i).
Proof.
  intros Hrange Hnames. revert parsed.
  induction Hrange as [|i range Hi Hrange IH]; intros parsed.
  - exists parsed. split; [reflexivity|]. intros x. left. reflexivity.
  - destruct (bind_parameter_tuple c ds args parsed i st Hi Hnames)
      as (p1 & Hstep & Hp1).
    destruct (IH p1) as (p2 & Hrest & Hp2).
    exists p2. split.
    + simpl. unfold bind. rewrite Hstep. exact Hrest.
    + intros x. destruct (Hp2 x) as [Hsame | (j & Hj & Hjx & Hcov)].
      * destruct Hp1 as [(-> & _ & _) | (y & v & Hy & -> & Hcov)].
        { left. exact Hsame. }
        destruct (decide (y = x)) as [-> | Hne].
        { right. exists i. split; [apply list_elem_of_here|].
          split; [exact Hy | exact Hcov]. }
        left. rewrite Hsame. apply lookup_insert_ne. exact Hne.
      * right. exists j. split; [apply list_elem_of_further; exact Hj|].
        split; [exact Hjx | exact Hcov].
Qed.

(** C3, as the code has it.  For a function built with a tuple of defaults,
    binding never fails on a short call: a required slot that no positional
    argument, default or keyword covers is left out of [parsed_args], and
    the child frame is created and run all the same, its locals being the
    locals of the defining frame as they are now, overlaid with the
    parameters that were bound.  There the uncovered parameter is unbound,
    unless the defining frame happens to have a local of that name. *)
Theorem short_call_leaves_slot_unbound (b g l : loc) (c : CodeType)
    (ds args : list value) (kwargs L : gmap string value)
    (fr : Frame) (h : heap) :
  (co_argcount c <= length (co_varnames c))%nat ->
  NoDup (take (co_argcount c) (co_varnames c)) ->
  h !! l = Some (ODict L) ->
  let fn := Closure b g l (VCode c) (Some (VTuple ds)) in
  exists parsed,
    parse_args fn args kwargs (fr, h) = (Ok parsed, (fr, h))
    /\ f_frame fn args kwargs (fr, h)
       = (Ok (Frame_init c b g (length h)), (fr, h ++ [ODict (parsed ∪ L)]))
    /\ (forall run_frame,
          f run_frame fn args kwargs (fr, h)
          = run_frame (Frame_init c b g (length h))
                      (fr, h ++ [ODict (parsed ∪ L)]))
    /\ (forall i x, uncovered_slot c (Some ds) args kwargs i x ->
          parsed !! x = None /\ (parsed ∪ L) !! x = L !! x).
Proof.
  intros Hnames Hdup Hl fn.
  destruct (bind_parameters_tuple c ds args (seq 0 (co_argcount c)) ∅ (fr, h))
    as (bound & Hbind & Hbound); [ | exact Hnames | ].
  { apply Forall_forall. intros i Hi. apply elem_of_seq in Hi. lia. }
  assert (Hparse : parse_args fn args kwargs (fr, h)
                   = (Ok (kwargs ∪ bound), (fr, h))).
  { unfold fn, parse_args, bind at 1. simpl. unfold bind at 1.
    rewrite Hbind. reflexivity. }
  assert (Hframe : f_frame fn args kwargs (fr, h)
          = (Ok (Frame_init c b g (length h)),
             (fr, h ++ [ODict ((kwargs ∪ bound) ∪ L)])))
    by (apply f_frame_of_parse_args; [exact Hparse | exact Hl]).
  exists (kwargs ∪ bound). split; [exact Hparse|]. split; [exact Hframe|].
  split.
  { intros run_frame. unfold f, bind. fold fn. rewrite Hframe. reflexivity. }
  intros i x (Hi & Hx & Hkw & Hdef).
  assert (Hnone : (kwargs ∪ bound) !! x = None).
  { apply lookup_union_None_2; [exact Hkw|].
    destruct (Hbound x) as [-> | (j & Hj & Hjx & Hcov)]; [apply lookup_empty|].
    apply elem_of_seq in Hj.
    assert (j = i).
    { apply (NoDup_lookup _ j i x Hdup);
        rewrite lookup_take_lt by lia; assumption. }
    subst j. lia. }
  split; [exact Hnone|]. apply lookup_union_r. exact Hnone.
Qed.

Lemma short_call_leaves_slot_unbound_witness :
  let c := Code 3 ["a"; "b"; "c"] [] [Instr "RETURN_CONST" (Some 0) VNone 0] in
  let fn := Closure 0%nat 0%nat 0%nat (VCode c) (Some (VTuple [VInt 20])) in
  let fr := Frame_init c 0%nat 0%nat 0%nat in
  let h := [ODict ∅] in
  exists parsed,
    parse_args fn [VInt 1] ∅ (fr, h) = (Ok parsed, (fr, h))
    /\ f_frame fn [VInt 1] ∅ (fr, h)
       = (Ok (Frame_init c 0%nat 0%nat 1%nat), (fr, h ++ [ODict (parsed ∪ ∅)]))
    /\ parsed !! "b" = None.
Proof.
  intros c fn fr h.
  destruct (short_call_leaves_slot_unbound 0%nat 0%nat 0%nat c [VInt 20] [VInt 1]
              ∅ ∅ fr h)
    as (parsed & Hparse & Hframe & _ & Hslot).
  - simpl. lia.
  - simpl. apply NoDup_ListNoDup.
    repeat (constructor; [simpl; intuition discriminate|]). constructor.
  - reflexivity.
  - exists parsed. split; [exact Hparse|]. split; [exact Hframe|].
    apply (Hslot 1%nat "b").
    unfold uncovered_slot. simpl.
    split; [lia|]. split; [reflexivity|]. split; [reflexivity|]. lia.
Defined.

(** C3 as the claim states it fails: a function of three parameters whose
    one default covers the last, called with one argument; nothing covers
    the second parameter, and binding ends normally. *)
Lemma short_call_binds_without_error : ~ short_call_fails_in_binding.
Proof.
  intros Hclaim.
  pose (c := Code 3 ["a"; "b"; "c"] [] []).
  destruct (Hclaim 0%nat 0%nat 0%nat c (Some [VInt 20]) [VInt 1] ∅ 1%nat "b"
              (Frame_init c 0%nat 0%nat 0%nat, [ODict ∅]))
    as (e & st' & Hraise).
  - unfold uncovered_slot. simpl.
    split; [lia|]. split; [reflexivity|]. split; [reflexivity|]. lia.
  - vm_compute in Hraise. discriminate Hraise.
Qed.

(** the other half of the arity story: a function built without defaults
    has an empty [defaults] cell, and the first slot that no positional
    argument reaches runs into it *)
Lemma bind_parameters_no_defaults (c : CodeType) (args : list value)
    (n a : nat) (parsed : gmap string value) (st : state) :
  (a <= length args)%nat ->
  (a + n <= length (co_varnames c))%nat ->
  (length args < a + n)%nat ->
  exists msg,
    bind_parameters c None args parsed (seq a n) st = (Raise (NameError msg), st).
Proof.
  revert a parsed. induction n as [|n IH]; intros a parsed Ha Hnames Hshort.
  - lia.
  - simpl. unfold bind at 1, bind_parameter.
    destruct (args !! a) as [v|] eqn:Hv.
    + destruct (lookup_lt_is_Some_2 (co_varnames c) a ltac:(lia)) as [x Hx].
      unfold bind at 1, varname. rewrite Hx. simpl.
      apply lookup_lt_Some in Hv.
      apply IH; lia.
    + eexists. reflexivity.
Qed.

Lemma short_call_without_defaults (b g l : loc) (c : CodeType)
    (args : list value) (kwargs : gmap string value) (st : state) :
  (co_argcount c <= length (co_varnames c))%nat ->
  (length args < co_argcount c)%nat ->
  exists msg,
    parse_args (Closure b g l (VCode c) None) args kwargs st
    = (Raise (NameError msg), st).
Proof.
  intros Hnames Hshort.
  destruct (bind_parameters_no_defaults c args (co_argcount c) 0 ∅ st)
    as [msg Hmsg]; [lia | lia | lia |].
  exists msg. unfold parse_args, bind at 1. simpl. unfold bind. rewrite Hmsg.
  reflexivity.
Qed.

(** ** Closures and the locals of the defining frame *)

Lemma pop_ok_inv (fr : Frame) (h : heap) (v : value) (st' : state) :
  pop (fr, h) = (Ok v, st') ->
  exists s, st' = (set_data_stack s fr, h).
Proof.
  unfold pop, bind, get_frame, set_frame, ret, raise. simpl.
  destruct (py_index (data_stack fr) (-1)); intros H; inversion H.
  eexists. reflexivity.
Qed.

Lemma pop_if_flag_ok_inv (a flag : Z) (fr : Frame) (h : heap)
    (o : option value) (st' : state) :
  pop_if_flag a flag (fr, h) = (Ok o, st') ->
  exists s, st' = (set_data_stack s fr, h).
Proof.
  unfold pop_if_flag. destruct (Z.land a flag =? 0).
  - intros H. inversion H. exists (data_stack fr).
    rewrite set_data_stack_id. reflexivity.
  - unfold bind. destruct (pop (fr, h)) as [[v|e| |] st1] eqn:E; intros H;
      inversion H. subst. exact (pop_ok_inv _ _ _ _ E).
Qed.

Lemma make_function_ok_inv (flags : Z) (fr fr1 : Frame) (h h1 : heap) :
  make_function (VInt flags) (fr, h) = (Ok tt, (fr1, h1)) ->
  exists s code defaults,
    fr1 = set_data_stack
            (s ++ [VFunction (Closure (builtins fr) (globals fr) (locals fr)
                                      code defaults)]) fr
    /\ h1 = h.
Proof.
  intros H. unfold make_function in H. unfold bind at 1 in H. simpl in H.
  bind_inv H. apply pop_if_flag_ok_inv in E as [s1 ->].
  bind_inv H. apply pop_if_flag_ok_inv in E as [s2 ->].
  bind_inv H. apply pop_if_flag_ok_inv in E as [s3 ->].
  bind_inv H. apply pop_if_flag_ok_inv in E as [s4 ->].
  bind_inv H. apply pop_ok_inv in E as [s5 ->].
  unfold bind in H. simpl in H. inversion H.
  eexists _, _, _. split; reflexivity.
Qed.

Lemma store_name_writes (fr : Frame) (h : heap) (s : list value) (v : value)
    (x : string) (D : gmap string value) :
  data_stack fr = s ++ [v] ->
  h !! locals fr = Some (ODict D) ->
  store_name (VStr x) (fr, h)
  = (Ok tt, (set_data_stack s fr, <[locals fr := ODict (<[x := v]> D)]> h)).
Proof.
  intros Hs HD. unfold store_name, bind at 1. simpl.
  unfold bind at 1. rewrite (pop_last _ _ _ _ Hs).
  unfold bind at 1. simpl. unfold bind at 1.
  rewrite (read_dict_at _ _ _ _ HD).
  apply (write_dict_at _ _ _ _ _ HD).
Qed.

(** C1, as the code has it.  The function that [make_function] pushes keeps
    a reference to the locals of the defining frame, not a copy.  The copy
    is made by each call: the locals of the child frame are the locals of
    the defining frame as they are when the call is made, overlaid with the
    bound parameters.  So a value stored under [x] in the defining frame
    after the build and before the call is what the child frame finds under
    [x], unless a bound parameter has that name. *)
Theorem closure_reads_locals_at_call (fr : Frame) (h : heap) (flags : Z)
    (fr1 : Frame) (h1 : heap) :
  make_function (VInt flags) (fr, h) = (Ok tt, (fr1, h1)) ->
  exists s1 code defaults,
    let fn := Closure (builtins fr) (globals fr) (locals fr) code defaults in
    data_stack fr1 = s1 ++ [VFunction fn]
    /\ locals fr1 = locals fr
    /\ h1 = h
    /\ forall (D : gmap string value) (x : string) (v : value),
         h !! locals fr = Some (ODict D) ->
         let h2 := <[locals fr := ODict (<[x := v]> D)]> h in
         store_name (VStr x) (set_data_stack (s1 ++ [v]) fr1, h)
         = (Ok tt, (set_data_stack s1 fr1, h2))
         /\ forall (caller : Frame) (args : list value)
                   (kwargs parsed : gmap string value) (c : CodeType),
              code = VCode c ->
              parse_args fn args kwargs (caller, h2) = (Ok parsed, (caller, h2)) ->
              f_frame fn args kwargs (caller, h2)
              = (Ok (Frame_init c (builtins fr) (globals fr) (length h2)),
                 (caller, h2 ++ [ODict (parsed ∪ <[x := v]> D)]))
              /\ (parsed !! x = None ->
                  (parsed ∪ <[x := v]> D) !! x = Some v).
Proof.
  intros Hbuild.
  destruct (make_function_ok_inv _ _ _ _ _ Hbuild) as (s1 & code & defaults & -> & ->).
  exists s1, code, defaults. intros fn.
  split; [reflexivity|]. split; [reflexivity|]. split; [reflexivity|].
  intros D x v HD h2. split.
  - exact (store_name_writes
             (set_data_stack (s1 ++ [v])
                (set_data_stack (s1 ++ [VFunction fn]) fr))
             h s1 v x D eq_refl HD).
  - intros caller args kwargs parsed c -> Hparse.
    assert (HD2 : h2 !! locals fr = Some (ODict (<[x := v]> D))).
    { unfold h2. apply list_lookup_insert_eq. apply lookup_lt_Some in HD. exact HD. }
    split.
    + exact (f_frame_of_parse_args _ _ _ c defaults args kwargs parsed _ caller h2
               Hparse HD2).
    + intros Hx. rewrite lookup_union_r by exact Hx. apply lookup_insert_eq.
Qed.

Lemma closure_reads_locals_at_call_witness :
  let inner := Code 0 [] [] [Instr "LOAD_FAST" None (VStr "x") 0;
                             Instr "RETURN_VALUE" None VNone 2] in
  let fr := set_data_stack [VCode inner]
              (Frame_init (Code 0 [] [] []) 0%nat 1%nat 2%nat) in
  let h := [ODict ∅; ODict ∅; ODict ∅] in
  let fn := Closure 0%nat 1%nat 2%nat (VCode inner) None in
  let fr1 := set_data_stack [VFunction fn] fr in
  let h2 := <[2%nat := ODict (<["x" := VInt 1]> ∅)]> h in
  make_function (VInt 0) (fr, h) = (Ok tt, (fr1, h))
  /\ store_name (VStr "x") (set_data_stack [VInt 1] fr1, h)
     = (Ok tt, (set_data_stack [] fr1, h2))
  /\ exists Dc,
       f_frame fn [] ∅ (fr1, h2)
       = (Ok (Frame_init inner 0%nat 1%nat 3%nat), (fr1, h2 ++ [ODict Dc]))
       /\ Dc !! "x" = Some (VInt 1).
Proof.
  intros inner fr h fn fr1 h2.
  destruct (closure_reads_locals_at_call fr h 0 fr1 h eq_refl)
    as (s1 & code & defaults & Hstack & _ & _ & Hlater).
  simpl in Hstack.
  assert (Hs : s1 = [] /\ code = VCode inner /\ defaults = None).
  { apply (app_inj_tail [] s1) in Hstack as [<- Heq].
    inversion Heq. auto. }
  destruct Hs as (-> & -> & ->).
  destruct (Hlater ∅ "x" (VInt 1) eq_refl) as [Hstore Hcall].
  split; [reflexivity|]. split; [exact Hstore|].
  exists (∅ ∪ ∅ ∪ <["x" := VInt 1]> ∅).
  destruct (Hcall fr1 [] ∅ (∅ ∪ ∅) inner eq_refl eq_refl) as [Hframe Hsees].
  split; [exact Hframe|]. apply Hsees. reflexivity.
Defined.

(** C1 as the claim states it fails: a function built while the defining
    frame has no local [x], then [x = 1] stored in that frame, then the
    call; the child frame has [x] bound to 1. *)
Lemma closure_sees_later_store : ~ closure_snapshot_at_build.
Proof.
  intros Hclaim.
  pose (inner := Code 0 [] [] []).
  pose (fr := set_data_stack [VCode inner]
                (Frame_init (Code 0 [] [] []) 0%nat 1%nat 2%nat)).
  pose (h := [ODict ∅; ODict ∅; ODict ∅]).
  pose (fr1 := set_data_stack [VFunction (Closure 0%nat 1%nat 2%nat (VCode inner) None)] fr).
  pose (h2 := <[2%nat := ODict (<["x" := VInt 1]> ∅)]> h).
  pose (Dc := (∅ ∪ ∅) ∪ <["x" := VInt 1]> (∅ : gmap string value)).
  assert (H : Dc !! "x" = (∅ : gmap string value) !! "x").
  { apply (Hclaim fr h 0 fr1 h [] 0%nat 1%nat 2%nat inner None ∅ "x" (VInt 1)
             (set_data_stack [] fr1) h2 fr1 [] (Frame_init inner 0%nat 1%nat 3%nat)
             (fr1, h2 ++ [ODict Dc]) Dc).
    - reflexivity.
    - reflexivity.
    - reflexivity.
    - apply not_elem_of_nil.
    - reflexivity.
    - reflexivity.
    - reflexivity. }
  vm_compute in H. discriminate H.
Qed.

(** ** Whole units, run from [VirtualMachine.run] *)

(** a function is built, then [x = 1] is stored, then the function is called
    and reads its local [x]: it finds 1 *)
Example closure_call_after_store_run :
  let g := Code 0 [] [] [Instr "LOAD_FAST" (Some 0) (VStr "x") 0;
                         Instr "RETURN_VALUE" None VNone 2] in
  fst (VirtualMachine_run 20
         (Code 0 [] ["g"; "x"]
            [Instr "LOAD_CONST" (Some 0) (VCode g) 0;
             Instr "MAKE_FUNCTION" (Some 0) (VInt 0) 2;
             Instr "STORE_NAME" (Some 0) (VStr "g") 4;
             Instr "LOAD_CONST" (Some 1) (VInt 1) 6;
             Instr "STORE_NAME" (Some 1) (VStr "x") 8;
             Instr "PUSH_NULL" None VNone 10;
             Instr "LOAD_NAME" (Some 0) (VStr "g") 12;
             Instr "CALL" (Some 0) (VInt 0) 14;
             Instr "RETURN_VALUE" None VNone 22])
         0%nat [ODict ∅])
  = Ok (VInt 1).
Proof. vm_compute. reflexivity. Qed.

(** a function of three parameters with one default, called with one
    argument: the frame of the call runs; reading the parameter nobody
    bound fails there, in [load_fast], with [KeyError].  ([make_function]
    pops the defaults before the code, so the unit pushes them last.) *)
Example short_call_run :
  let unit_reading (x : string) :=
    let callee := Code 3 ["a"; "b"; "c"] []
                    [Instr "LOAD_FAST" (Some 0) (VStr x) 0;
                     Instr "RETURN_VALUE" None VNone 2] in
    Code 0 [] ["f"]
      [Instr "LOAD_CONST" (Some 0) (VCode callee) 0;
       Instr "LOAD_CONST" (Some 1) (VTuple [VInt 20]) 2;
       Instr "MAKE_FUNCTION" (Some 1) (VInt 1) 4;
       Instr "STORE_NAME" (Some 0) (VStr "f") 6;
       Instr "PUSH_NULL" None VNone 8;
       Instr "LOAD_NAME" (Some 0) (VStr "f") 10;
       Instr "LOAD_CONST" (Some 2) (VInt 1) 12;
       Instr "CALL" (Some 1) (VInt 1) 14;
       Instr "RETURN_VALUE" None VNone 22] in
  fst (VirtualMachine_run 20 (unit_reading "c") 0%nat [ODict ∅]) = Ok (VInt 20)
  /\ fst (VirtualMachine_run 20 (unit_reading "a") 0%nat [ODict ∅]) = Ok (VInt 1)
  /\ fst (VirtualMachine_run 20 (unit_reading "b") 0%nat [ODict ∅]) = Raise KeyError.
Proof. vm_compute. auto. Qed.

(** a loop over a list of three elements that adds them up *)
Example loop_run :
  fst (VirtualMachine_run 40
         (Code 0 [] ["total"; "x"]
            [Instr "LOAD_CONST" (Some 0) (VInt 0) 0;
             Instr "STORE_NAME" (Some 0) (VStr "total") 2;
             Instr "LOAD_CONST" (Some 1) (VInt 1) 4;
             Instr "LOAD_CONST" (Some 2) (VInt 2) 6;
             Instr "LOAD_CONST" (Some 3) (VInt 3) 8;
             Instr "BUILD_LIST" (Some 3) (VInt 3) 10;
             Instr "GET_ITER" None VNone 12;
             Instr "FOR_ITER" (Some 7) (VInt 30) 14;
             Instr "STORE_NAME" (Some 1) (VStr "x") 18;
             Instr "LOAD_NAME" (Some 0) (VStr "total") 20;
             Instr "LOAD_NAME" (Some 1) (VStr "x") 22;
             Instr "BINARY_OP" (Some 13) (VInt 13) 24;
             Instr "STORE_NAME" (Some 0) (VStr "total") 26;
             Instr "JUMP_BACKWARD" (Some 8) (VInt 14) 28;
             Instr "END_FOR" None VNone 30;
             Instr "LOAD_NAME" (Some 0) (VStr "total") 32;
             Instr "RETURN_VALUE" None VNone 34])
         0%nat [ODict ∅])
  = Ok (VInt 6).
Proof. vm_compute. reflexivity. Qed.

(** * Further properties of the frame *)

(** ** The operand stack *)

Lemma slice_bound_range (len i : Z) : 0 <= len -> 0 <= slice_bound len i <= len.
Proof.
  intros H. unfold slice_bound. destruct (i <? 0) eqn:E.
  - apply Z.ltb_lt in E. lia.
  - apply Z.ltb_ge in E. lia.
Qed.

Lemma slice_bound_top (len n : Z) :
  0 < n <= len -> slice_bound len (- n) = len - n.
Proof.
  intros H. unfold slice_bound.
  destruct (- n <? 0) eqn:E.
  - lia.
  - apply Z.ltb_ge in E. lia.
Qed.

(** X1. Popping [n] values and pushing back what was popped leaves the frame
    and the heap exactly as they were, whatever [n] is: zero or negative
    (nothing is popped), within the depth, or beyond it (everything is). *)
Theorem popn_then_push_is_identity (n : Z) (fr : Frame) (h : heap) :
  (do values <- popn n; push values) (fr, h) = (Ok tt, (fr, h)).
Proof.
  destruct fr as [c b g l s k i ins tbl r].
  unfold popn. destruct (n >? 0).
  - unfold push, bind, get_frame, set_frame, ret, set_data_stack. simpl.
    unfold py_slice_from, py_del_slice_from. rewrite take_drop. reflexivity.
  - unfold push, bind, get_frame, set_frame, ret, set_data_stack. simpl.
    rewrite app_nil_r. reflexivity.
Qed.

Lemma popn_exact (fr : Frame) (h : heap) (s values : list value) :
  data_stack fr = s ++ values ->
  popn (Z.of_nat (length values)) (fr, h)
  = (Ok values, (set_data_stack s fr, h)).
Proof.
  intros H0. unfold popn.
  destruct values as [|v values].
  - simpl. rewrite app_nil_r in H0. rewrite <- H0, set_data_stack_id.
    reflexivity.
  - assert (E : (Z.of_nat (length (v :: values)) >? 0) = true)
      by (apply Z.gtb_lt; simpl; lia).
    rewrite E. unfold bind, get_frame, set_frame, ret. simpl fst. simpl snd.
    unfold py_slice_from, py_del_slice_from. rewrite H0.
    rewrite slice_bound_top by (rewrite length_app; simpl; lia).
    replace (Z.to_nat (Z.of_nat (length (s ++ v :: values))
                       - Z.of_nat (length (v :: values))))
      with (length s) by (rewrite length_app; lia).
    rewrite drop_app_length, take_app_length. reflexivity.
Qed.

(** X2. With at least [n] values on the stack, [popn n] returns exactly the
    top [n], the deepest first, and leaves the rest; so pushing a list of
    values and popping as many gives the list back. *)
Theorem popn_returns_top (fr : Frame) (h : heap) (s values : list value) :
  data_stack fr = s ++ values ->
  popn (Z.of_nat (length values)) (fr, h)
    = (Ok values, (set_data_stack s fr, h))
  /\ (do _ <- push values; popn (Z.of_nat (length values)))
       (set_data_stack s fr, h)
     = (Ok values, (set_data_stack s fr, h)).
Proof.
  intros Hs. split; [exact (popn_exact fr h s values Hs)|].
  unfold bind at 1. rewrite push_app.
  exact (popn_exact (set_data_stack (s ++ values) (set_data_stack s fr)) h
           s values eq_refl).
Qed.

Lemma popn_returns_top_witness :
  let fr := set_data_stack [VInt 1; VInt 2; VInt 3]
              (Frame_init (Code 0 [] [] []) 0%nat 0%nat 0%nat) in
  popn 2 (fr, []) = (Ok [VInt 2; VInt 3], (set_data_stack [VInt 1] fr, [])).
Proof.
  intros fr.
  exact (proj1 (popn_returns_top fr [] [VInt 1] [VInt 2; VInt 3] eq_refl)).
Defined.

(** X3. On an empty stack every reading primitive and every handler that
    starts by popping raises [IndexError] and changes nothing. *)
Theorem empty_stack_raises_IndexError (fr : Frame) (h : heap) :
  data_stack fr = [] ->
  pop (fr, h) = (Raise IndexError, (fr, h))
  /\ top (fr, h) = (Raise IndexError, (fr, h))
  /\ peek (fr, h) = (Raise IndexError, (fr, h))
  /\ (forall a, pop_top a (fr, h) = (Raise IndexError, (fr, h)))
  /\ (forall a, end_for a (fr, h) = (Raise IndexError, (fr, h)))
  /\ (forall a, for_iter a (fr, h) = (Raise IndexError, (fr, h)))
  /\ (forall a, get_iter a (fr, h) = (Raise IndexError, (fr, h)))
  /\ (forall a, binary_op a (fr, h) = (Raise IndexError, (fr, h)))
  /\ (forall a, unpack_sequence a (fr, h) = (Raise IndexError, (fr, h)))
  /\ (forall callf n,
        call callf (VInt n) (fr, h) = (Raise IndexError, (fr, h))).
Proof.
  intros He.
  assert (Hpop : pop (fr, h) = (Raise IndexError, (fr, h)))
    by (apply pop_empty; exact He).
  assert (Hpeek : peek (fr, h) = (Raise IndexError, (fr, h))).
  { unfold peek, bind, get_frame, raise. simpl. rewrite He, py_index_nil.
    reflexivity. }
  split; [exact Hpop|]. split; [exact Hpeek|]. split; [exact Hpeek|].
  split. { intros a. unfold pop_top, bind. rewrite Hpop. reflexivity. }
  split. { intros a. unfold end_for, pop_top, bind. rewrite Hpop. reflexivity. }
  split. { intros a. unfold for_iter, bind. rewrite Hpeek. reflexivity. }
  split. { intros a. unfold get_iter, bind. rewrite Hpop. reflexivity. }
  split. { intros a. unfold binary_op, bind. rewrite Hpop. reflexivity. }
  split. { intros a. unfold unpack_sequence, bind, get_frame. simpl.
           rewrite He, py_index_nil. reflexivity. }
  intros callf n. unfold call, bind at 1. simpl.
  unfold bind at 1, popn.
  destruct (n >? 0).
  - unfold bind at 1, get_frame, set_frame, ret. simpl.
    unfold py_slice_from, py_del_slice_from. rewrite He. simpl.
    rewrite take_nil, drop_nil.
    replace (set_data_stack [] fr) with fr
      by (rewrite <- He; symmetry; apply set_data_stack_id).
    unfold bind. rewrite Hpop. reflexivity.
  - unfold ret, bind. rewrite Hpop. reflexivity.
Qed.

Lemma empty_stack_raises_IndexError_witness :
  let fr := Frame_init (Code 0 [] [] []) 0%nat 0%nat 0%nat in
  pop (fr, []) = (Raise IndexError, (fr, []))
  /\ top (fr, []) = (Raise IndexError, (fr, [])).
Proof.
  intros fr.
  pose proof (empty_stack_raises_IndexError fr [] eq_refl) as H.
  exact (conj (proj1 H) (proj1 (proj2 H))).
Defined.

(** ** Scopes *)

(** X4. [load_global] never looks at the locals: it resolves in the globals,
    then in the builtins, and raises the [NameError] naming [x] when neither
    binds it, even if a local [x] exists. *)
Theorem load_global_skips_locals (fr : Frame) (h : heap) (x : string)
    (G B : gmap string value) :
  h !! globals fr = Some (ODict G) ->
  h !! builtins fr = Some (ODict B) ->
  load_global (VStr x) (fr, h)
  = match G !! x, B !! x with
    | Some v, _ | None, Some v =>
        (Ok tt, (set_data_stack (data_stack fr ++ [v]) fr, h))
    | None, None =>
        (Raise (NameError ("Name '" +:+ x +:+ "' not in scope.")), (fr, h))
    end.
Proof.
  intros HG HB.
  unfold load_global, bind at 1. simpl. unfold bind at 1. simpl.
  unfold bind at 1. rewrite (read_dict_at _ _ _ _ HG).
  destruct (G !! x) as [v|]; [reflexivity|].
  unfold bind at 1. rewrite (read_dict_at _ _ _ _ HB).
  destruct (B !! x) as [v|]; reflexivity.
Qed.

Lemma load_global_skips_locals_witness :
  let fr := Frame_init (Code 0 [] [] []) 0%nat 1%nat 2%nat in
  let h := [ODict {[ "len" := VBuiltin "len" ]};
            ODict {[ "g" := VInt 1 ]};
            ODict {[ "x" := VInt 2 ]}] in
  load_global (VStr "g") (fr, h) = (Ok tt, (set_data_stack [VInt 1] fr, h))
  /\ load_global (VStr "len") (fr, h)
     = (Ok tt, (set_data_stack [VBuiltin "len"] fr, h))
  /\ load_global (VStr "x") (fr, h)
     = (Raise (NameError "Name 'x' not in scope."), (fr, h)).
Proof.
  intros fr h.
  refine (conj _ (conj _ _)).
  - exact (load_global_skips_locals fr h "g" _ _ eq_refl eq_refl).
  - exact (load_global_skips_locals fr h "len" _ _ eq_refl eq_refl).
  - exact (load_global_skips_locals fr h "x" _ _ eq_refl eq_refl).
Defined.

(** X5. [load_fast] reads the locals only: a name that is not a local raises
    [KeyError] and pushes nothing, whatever the globals and the builtins
    hold. *)
Theorem load_fast_reads_locals_only (fr : Frame) (h : heap) (x : string)
    (L : gmap string value) :
  h !! locals fr = Some (ODict L) ->
  load_fast (VStr x) (fr, h)
  = match L !! x with
    | Some v => (Ok tt, (set_data_stack (data_stack fr ++ [v]) fr, h))
    | None => (Raise KeyError, (fr, h))
    end.
Proof.
  intros HL.
  unfold load_fast, bind at 1. simpl. unfold bind at 1. simpl.
  unfold bind at 1. rewrite (read_dict_at _ _ _ _ HL).
  destruct (L !! x); reflexivity.
Qed.

Lemma load_fast_reads_locals_only_witness :
  let fr := Frame_init (Code 0 [] [] []) 0%nat 1%nat 2%nat in
  let h := [ODict ∅; ODict {[ "g" := VInt 1 ]}; ODict {[ "x" := VInt 2 ]}] in
  load_fast (VStr "x") (fr, h) = (Ok tt, (set_data_stack [VInt 2] fr, h))
  /\ load_fast (VStr "g") (fr, h) = (Raise KeyError, (fr, h)).
Proof.
  intros fr h. split.
  - exact (load_fast_reads_locals_only fr h "x" _ eq_refl).
  - exact (load_fast_reads_locals_only fr h "g" _ eq_refl).
Defined.

Lemma heap_lookup_insert_dict (h : heap) (l : loc) (d d' : gmap string value) :
  h !! l = Some (ODict d) ->
  <[l := ODict d']> h !! l = Some (ODict d').
Proof.
  intros H. apply list_lookup_insert_eq. apply lookup_lt_Some in H. exact H.
Qed.

(** X6. Storing the top of the stack under a name and loading that name
    again puts the same value back on the stack, whether the store is
    [store_name] or [store_fast] and the load [load_name] or [load_fast]:
    the local just written wins over any global or builtin of that name.
    The store changes the binding of that one name only. *)
Theorem store_then_load (fr : Frame) (h : heap) (s : list value) (v : value)
    (x : string) (L : gmap string value) :
  data_stack fr = s ++ [v] ->
  h !! locals fr = Some (ODict L) ->
  let h' := <[locals fr := ODict (<[x := v]> L)]> h in
  (do _ <- store_name (VStr x); load_name (VStr x)) (fr, h) = (Ok tt, (fr, h'))
  /\ (do _ <- store_fast (VStr x); load_fast (VStr x)) (fr, h) = (Ok tt, (fr, h'))
  /\ (do _ <- store_fast (VStr x); load_name (VStr x)) (fr, h) = (Ok tt, (fr, h'))
  /\ (do _ <- store_name (VStr x); load_fast (VStr x)) (fr, h) = (Ok tt, (fr, h'))
  /\ forall y, y <> x -> (<[x := v]> L) !! y = L !! y.
Proof.
  intros Hs HL h'.
  assert (Hstore : store_name (VStr x) (fr, h) = (Ok tt, (set_data_stack s fr, h')))
    by exact (store_name_writes fr h s v x L Hs HL).
  assert (Hstore' : store_fast (VStr x) (fr, h) = (Ok tt, (set_data_stack s fr, h')))
    by exact Hstore.
  assert (HL' : h' !! locals (set_data_stack s fr) = Some (ODict (<[x := v]> L)))
    by exact (heap_lookup_insert_dict h _ L _ HL).
  assert (Hback : set_data_stack (data_stack (set_data_stack s fr) ++ [v])
                    (set_data_stack s fr) = fr).
  { simpl. rewrite set_data_stack_twice, <- Hs. apply set_data_stack_id. }
  assert (Hfast : load_fast (VStr x) (set_data_stack s fr, h') = (Ok tt, (fr, h'))).
  { unfold load_fast, bind at 1. simpl. unfold bind at 1. simpl.
    unfold bind at 1. rewrite (read_dict_at _ _ _ _ HL').
    rewrite lookup_insert_eq. rewrite push_app, Hback. reflexivity. }
  assert (Hname : load_name (VStr x) (set_data_stack s fr, h') = (Ok tt, (fr, h'))).
  { unfold load_name, bind at 1. simpl. unfold bind at 1. simpl.
    unfold bind at 1. rewrite (read_dict_at _ _ _ _ HL').
    rewrite lookup_insert_eq. rewrite push_app, Hback. reflexivity. }
  repeat split.
  - unfold bind. rewrite Hstore. exact Hname.
  - unfold bind. rewrite Hstore'. exact Hfast.
  - unfold bind. rewrite Hstore'. exact Hname.
  - unfold bind. rewrite Hstore. exact Hfast.
  - intros y Hy. apply lookup_insert_ne. congruence.
Qed.

Lemma store_then_load_witness :
  let fr := set_data_stack [VInt 7]
              (Frame_init (Code 0 [] [] []) 0%nat 1%nat 2%nat) in
  let h := [ODict {[ "x" := VInt 0 ]}; ODict {[ "x" := VInt 1 ]}; ODict ∅] in
  (do _ <- store_name (VStr "x"); load_name (VStr "x")) (fr, h)
  = (Ok tt, (fr, <[2%nat := ODict (<["x" := VInt 7]> ∅)]> h)).
Proof.
  intros fr h.
  exact (proj1 (store_then_load fr h [] (VInt 7) "x" ∅ eq_refl eq_refl)).
Defined.

(** X7. In a frame whose locals and globals are one dictionary (the root
    frame of [VirtualMachine.run]), a [store_name] is seen by [load_global].
    In a frame whose locals are a dictionary of their own (the frame of a
    call), it is not: [load_global] still answers from the globals and the
    builtins as they were, or raises [NameError]. *)
Theorem store_name_visible_as_global (fr : Frame) (h : heap) (s : list value)
    (v : value) (x : string) (L : gmap string value) :
  data_stack fr = s ++ [v] ->
  h !! locals fr = Some (ODict L) ->
  let h' := <[locals fr := ODict (<[x := v]> L)]> h in
  (locals fr = globals fr ->
     (do _ <- store_name (VStr x); load_global (VStr x)) (fr, h)
     = (Ok tt, (fr, h')))
  /\ (forall G B : gmap string value,
      locals fr <> globals fr ->
      locals fr <> builtins fr ->
      h !! globals fr = Some (ODict G) ->
      h !! builtins fr = Some (ODict B) ->
      (do _ <- store_name (VStr x); load_global (VStr x)) (fr, h)
      = match G !! x, B !! x with
        | Some w, _ | None, Some w =>
            (Ok tt, (set_data_stack (s ++ [w]) fr, h'))
        | None, None =>
            (Raise (NameError ("Name '" +:+ x +:+ "' not in scope.")),
             (set_data_stack s fr, h'))
        end).
Proof.
  intros Hs HL h'.
  assert (Hstore : store_name (VStr x) (fr, h) = (Ok tt, (set_data_stack s fr, h')))
    by exact (store_name_writes fr h s v x L Hs HL).
  split.
  - intros Halias.
    assert (HG : h' !! globals (set_data_stack s fr) = Some (ODict (<[x := v]> L))).
    { simpl. rewrite <- Halias. exact (heap_lookup_insert_dict h _ L _ HL). }
    unfold bind at 1. rewrite Hstore.
    unfold load_global, bind at 1. simpl. unfold bind at 1. simpl.
    unfold bind at 1. rewrite (read_dict_at _ _ _ _ HG).
    rewrite lookup_insert_eq, push_app. simpl.
    rewrite set_data_stack_twice, <- Hs, set_data_stack_id. reflexivity.
  - intros G B HneG HneB HG HB.
    assert (HG' : h' !! globals (set_data_stack s fr) = Some (ODict G)).
    { change (h' !! globals fr = Some (ODict G)). rewrite <- HG.
      apply list_lookup_insert_ne. exact HneG. }
    assert (HB' : h' !! builtins (set_data_stack s fr) = Some (ODict B)).
    { change (h' !! builtins fr = Some (ODict B)). rewrite <- HB.
      apply list_lookup_insert_ne. exact HneB. }
    unfold bind at 1. rewrite Hstore.
    unfold load_global, bind at 1. simpl. unfold bind at 1. simpl.
    unfold bind at 1. rewrite (read_dict_at _ _ _ _ HG').
    destruct (G !! x) as [w|]; [reflexivity|].
    unfold bind at 1. rewrite (read_dict_at _ _ _ _ HB').
    destruct (B !! x) as [w|]; reflexivity.
Qed.

Lemma store_name_visible_as_global_witness :
  let root := set_data_stack [VInt 7]
                (Frame_init (Code 0 [] [] []) 0%nat 1%nat 1%nat) in
  let child := set_data_stack [VInt 7]
                 (Frame_init (Code 0 [] [] []) 0%nat 1%nat 2%nat) in
  let h := [ODict ∅; ODict ∅; ODict ∅] in
  (do _ <- store_name (VStr "x"); load_global (VStr "x")) (root, h)
  = (Ok tt, (root, <[1%nat := ODict (<["x" := VInt 7]> ∅)]> h))
  /\ (do _ <- store_name (VStr "x"); load_global (VStr "x")) (child, h)
     = (Raise (NameError "Name 'x' not in scope."),
        (set_data_stack [] child, <[2%nat := ODict (<["x" := VInt 7]> ∅)]> h)).
Proof.
  intros root child h. split.
  - apply (proj1 (store_name_visible_as_global root h [] (VInt 7) "x" ∅
                    eq_refl eq_refl)).
    reflexivity.
  - exact (proj2 (store_name_visible_as_global child h [] (VInt 7) "x" ∅
                    eq_refl eq_refl) ∅ ∅
             ltac:(simpl; lia) ltac:(simpl; lia) eq_refl eq_refl).
Defined.

(** ** The jump table *)

Lemma enumerate_offsets_keeps (ins : list Instruction) (i : nat)
    (tbl : gmap Z nat) (o : Z) (k0 : nat) :
  tbl !! o = Some k0 ->
  exists k, enumerate_offsets ins i tbl !! o = Some k
            /\ (k = k0 \/ (i <= k)%nat).
Proof.
  revert i tbl k0. induction ins as [|instr rest IH]; intros i tbl k0 H.
  - exists k0. split; [exact H | left; reflexivity].
  - simpl. destruct (decide (offset instr = o)) as [E|E].
    + destruct (IH (S i) (<[offset instr := i]> tbl) i) as (k & Hk & Hor).
      { rewrite E. apply lookup_insert_eq. }
      exists k. split; [exact Hk|]. right. destruct Hor; lia.
    + destruct (IH (S i) (<[offset instr := i]> tbl) k0) as (k & Hk & Hor).
      { rewrite lookup_insert_ne by exact E. exact H. }
      exists k. split; [exact Hk|]. destruct Hor; [left; assumption | right; lia].
Qed.

Lemma enumerate_offsets_lookup (ins : list Instruction) (i : nat)
    (tbl : gmap Z nat) (o : Z) (k : nat) :
  enumerate_offsets ins i tbl !! o = Some k ->
  (exists j instr,
      ins !! j = Some instr /\ offset instr = o /\ k = (i + j)%nat
      /\ forall j' instr', ins !! j' = Some instr' -> offset instr' = o ->
                           (j' <= j)%nat)
  \/ ((forall j instr, ins !! j = Some instr -> offset instr <> o)
      /\ tbl !! o = Some k).
Proof.
  revert i tbl. induction ins as [|instr rest IH]; intros i tbl H.
  - right. split; [intros j instr Hj; discriminate Hj | exact H].
  - simpl in H. apply IH in H as [(j & instr' & Hj & Ho & -> & Hmax) | (Hnone & Ht)].
    + left. exists (S j), instr'. split; [exact Hj|]. split; [exact Ho|].
      split; [lia|]. intros [|j'] instr'' Hj' Ho'; [lia|].
      specialize (Hmax j' instr'' Hj' Ho'). lia.
    + destruct (decide (offset instr = o)) as [E|E].
      * left. exists 0%nat, instr. rewrite E, lookup_insert_eq in Ht.
        inversion Ht. subst k. split; [reflexivity|]. split; [exact E|].
        split; [lia|]. intros [|j'] instr'' Hj' Ho'; [lia|].
        exfalso. exact (Hnone j' instr'' Hj' Ho').
      * right. rewrite lookup_insert_ne in Ht by exact E. split; [|exact Ht].
        intros [|j] instr'' Hj; [inversion Hj; subst; exact E|].
        exact (Hnone j instr'' Hj).
Qed.

Lemma enumerate_offsets_complete (ins : list Instruction) (i : nat)
    (tbl : gmap Z nat) (j : nat) (instr : Instruction) :
  ins !! j = Some instr ->
  exists k, enumerate_offsets ins i tbl !! offset instr = Some k
            /\ (i + j <= k)%nat.
Proof.
  revert i tbl j. induction ins as [|first rest IH]; intros i tbl j H.
  - discriminate H.
  - destruct j as [|j]; simpl in H.
    + inversion H. subst first. simpl.
      destruct (enumerate_offsets_keeps rest (S i) (<[offset instr := i]> tbl)
                  (offset instr) i (lookup_insert_eq _ _ _)) as (k & Hk & Hor).
      exists k. split; [exact Hk|]. destruct Hor; lia.
    + simpl. destruct (IH (S i) (<[offset first := i]> tbl) j H) as (k & Hk & Hle).
      exists k. split; [exact Hk|]. lia.
Qed.

(** X8. The jump table of [run].  Every entry maps an offset to the index of
    an instruction that has this offset, the last such one; so an index read
    from the table is always within the instruction list.  Every instruction
    has its offset in the table; and when the offsets are pairwise distinct,
    as the decoder produces them, the offset of instruction [k] maps to [k]
    exactly. *)
Theorem offset_to_index_table (ins : list Instruction) :
  (forall o k, build_offset_to_index ins !! o = Some k ->
     exists instr, ins !! k = Some instr /\ offset instr = o
                   /\ forall k' instr', ins !! k' = Some instr' ->
                                        offset instr' = o -> (k' <= k)%nat)
  /\ (forall k instr, ins !! k = Some instr ->
        exists k', build_offset_to_index ins !! offset instr = Some k'
                   /\ (k <= k')%nat)
  /\ (NoDup (offset <$> ins) ->
      forall k instr, ins !! k = Some instr ->
                      build_offset_to_index ins !! offset instr = Some k).
Proof.
  assert (Hsound : forall o k, build_offset_to_index ins !! o = Some k ->
     exists instr, ins !! k = Some instr /\ offset instr = o
                   /\ forall k' instr', ins !! k' = Some instr' ->
                                        offset instr' = o -> (k' <= k)%nat).
  { intros o k H. unfold build_offset_to_index in H.
    apply enumerate_offsets_lookup in H
      as [(j & instr & Hj & Ho & -> & Hmax) | (_ & Hempty)].
    - exists instr. simpl. auto.
    - rewrite lookup_empty in Hempty. discriminate Hempty. }
  assert (Hcomplete : forall k instr, ins !! k = Some instr ->
        exists k', build_offset_to_index ins !! offset instr = Some k'
                   /\ (k <= k')%nat).
  { intros k instr H.
    destruct (enumerate_offsets_complete ins 0 ∅ k instr H) as (k' & Hk' & Hle).
    exists k'. split; [exact Hk' | lia]. }
  split; [exact Hsound|]. split; [exact Hcomplete|].
  intros Hdup k instr Hk.
  destruct (Hcomplete k instr Hk) as (k' & Hk' & _).
  destruct (Hsound _ _ Hk') as (instr' & Hi' & Ho' & _).
  assert (k' = k).
  { apply (NoDup_lookup (offset <$> ins) k' k (offset instr) Hdup).
    - rewrite list_lookup_fmap, Hi'. simpl. rewrite Ho'. reflexivity.
    - rewrite list_lookup_fmap, Hk. reflexivity. }
  subst k'. exact Hk'.
Qed.

Lemma offset_to_index_table_witness :
  let ins := [Instr "RESUME" (Some 0) (VInt 0) 0;
              Instr "LOAD_CONST" (Some 0) (VInt 1) 2;
              Instr "RETURN_VALUE" None VNone 4] in
  build_offset_to_index ins !! 4 = Some 2%nat.
Proof.
  intros ins.
  apply (proj2 (proj2 (offset_to_index_table ins))
           ltac:(simpl; apply NoDup_ListNoDup;
                 repeat (constructor; [simpl; intuition discriminate|]);
                 constructor)
           2%nat (Instr "RETURN_VALUE" None VNone 4)).
  reflexivity.
Defined.

(** ** The loop of [run] *)

Lemma run_body_handler (call_value : value -> list value -> M value)
    (instr : Instruction) (handler : value -> M unit) (fr : Frame) (h : heap) :
  String.eqb (lower (opname instr)) "return_value" = false ->
  String.eqb (lower (opname instr)) "load_attr" = false ->
  lookup_method (lower (opname instr)) (Frame_methods call_value) = Some handler ->
  run_body call_value instr (fr, h)
  = match handler (argval instr) (fr, h) with
    | (Ok _, (fr', h')) =>
        (Ok None,
         ((if Nat.eqb (ind_op fr') (ind_op fr)
           then set_ind_op (ind_op fr' + 1) fr' else fr'), h'))
    | (Raise e, st') => (Raise e, st')
    | (Unmodelled, st') => (Unmodelled, st')
    | (OutOfFuel, st') => (OutOfFuel, st')
    end.
Proof.
  intros Hret Hattr Hlookup. unfold run_body, bind at 1. simpl.
  rewrite Hret, Hattr. unfold bind at 1, getattr_call. rewrite Hlookup.
  destruct (handler (argval instr) (fr, h)) as [[[]|e| |] [fr' h']];
    try reflexivity.
  unfold bind, get_frame, set_frame, ret. simpl.
  destruct (Nat.eqb (ind_op fr') (ind_op fr)); reflexivity.
Qed.

(** X9. An unconditional jump through the loop of [run]: the next
    instruction is the one at the index the table gives for the target
    offset, except when that index is the index of the jump itself; then
    [ind_op] looks unchanged to the loop, which steps to the instruction
    after the jump.  A target offset that is not in the table raises
    [KeyError] and leaves the frame where it was. *)
Theorem jump_through_run_body (call_value : value -> list value -> M value)
    (a : option Z) (target off : Z) (fr : Frame) (h : heap) :
  let jump_result :=
    match offset_to_index fr !! target with
    | Some i =>
        (Ok None,
         (set_ind_op (if Nat.eqb i (ind_op fr) then (ind_op fr + 1)%nat else i) fr,
          h))
    | None => (Raise KeyError, (fr, h))
    end in
  run_body call_value (Instr "JUMP_FORWARD" a (VInt target) off) (fr, h)
    = jump_result
  /\ run_body call_value (Instr "JUMP_BACKWARD" a (VInt target) off) (fr, h)
     = jump_result.
Proof.
  assert (Hjump : jump_to (VInt target) (fr, h)
                  = match offset_to_index fr !! target with
                    | Some i => (Ok tt, (set_ind_op i fr, h))
                    | None => (Raise KeyError, (fr, h))
                    end).
  { unfold jump_to, jump_target, bind, get_frame, set_frame, ret, raise. simpl.
    destruct (offset_to_index fr !! target); reflexivity. }
  intros jump_result. unfold jump_result. clear jump_result.
  split.
  - rewrite (run_body_handler call_value
               (Instr "JUMP_FORWARD" a (VInt target) off) jump_forward fr h
               eq_refl eq_refl eq_refl).
    unfold jump_forward. simpl argval. rewrite Hjump.
    destruct (offset_to_index fr !! target) as [i|]; [|reflexivity].
    simpl. destruct (Nat.eqb i (ind_op fr)) eqn:E; [|reflexivity].
    apply Nat.eqb_eq in E. subst i. destruct fr; reflexivity.
  - rewrite (run_body_handler call_value
               (Instr "JUMP_BACKWARD" a (VInt target) off) jump_backward fr h
               eq_refl eq_refl eq_refl).
    unfold jump_backward. simpl argval. rewrite Hjump.
    destruct (offset_to_index fr !! target) as [i|]; [|reflexivity].
    simpl. destruct (Nat.eqb i (ind_op fr)) eqn:E; [|reflexivity].
    apply Nat.eqb_eq in E. subst i. destruct fr; reflexivity.
Qed.

(** X10. [pop_jump_if_false] pops the tested value in every case.  When the
    value is true the frame is otherwise untouched (the loop of [run] then
    steps to the next instruction); when it is false [ind_op] becomes the
    index of the target offset, and a target missing from the table raises
    [KeyError] after the pop. *)
Theorem pop_jump_if_false_branches (fr : Frame) (h : heap) (s : list value)
    (v : value) (b : bool) (target : Z) :
  data_stack fr = s ++ [v] ->
  py_bool v (set_data_stack s fr, h) = (Ok b, (set_data_stack s fr, h)) ->
  pop_jump_if_false (VInt target) (fr, h)
  = if b then (Ok tt, (set_data_stack s fr, h))
    else match offset_to_index fr !! target with
         | Some i => (Ok tt, (set_ind_op i (set_data_stack s fr), h))
         | None => (Raise KeyError, (set_data_stack s fr, h))
         end.
Proof.
  intros Hs Hb. unfold pop_jump_if_false, bind at 1.
  rewrite (pop_last _ _ _ _ Hs). unfold bind at 1. rewrite Hb.
  destruct b; [reflexivity|]. simpl.
  unfold jump_to, jump_target, bind, get_frame, set_frame, ret, raise. simpl.
  destruct (offset_to_index fr !! target); reflexivity.
Qed.

Lemma pop_jump_if_false_branches_witness :
  let fr := set_program [] {[ 20 := 7%nat ]}
              (set_data_stack [VInt 5; VInt 0]
                 (Frame_init (Code 0 [] [] []) 0%nat 0%nat 0%nat)) in
  pop_jump_if_false (VInt 20) (fr, [])
  = (Ok tt, (set_ind_op 7%nat (set_data_stack [VInt 5] fr), []))
  /\ pop_jump_if_false (VInt 22) (fr, [])
     = (Raise KeyError, (set_data_stack [VInt 5] fr, [])).
Proof.
  intros fr. split.
  - exact (pop_jump_if_false_branches fr [] [VInt 5] (VInt 0) false 20
             eq_refl eq_refl).
  - exact (pop_jump_if_false_branches fr [] [VInt 5] (VInt 0) false 22
             eq_refl eq_refl).
Defined.

Lemma lower_ascii_idempotent (c : ascii) :
  lower_ascii (lower_ascii c) = lower_ascii c.
Proof. destruct c as [[] [] [] [] [] [] [] []]; reflexivity. Qed.

Lemma lower_idempotent (s : string) : lower (lower s) = lower s.
Proof.
  induction s as [|c s IH]; [reflexivity|].
  simpl. rewrite lower_ascii_idempotent, IH. reflexivity.
Qed.

(** X11. The dispatcher does not care about the case of an opcode name: an
    instruction and the same instruction with its name in lower case are
    executed alike. *)
Theorem dispatch_ignores_case (call_value : value -> list value -> M value)
    (o : string) (a : option Z) (v : value) (off : Z) (st : state) :
  run_body call_value (Instr o a v off) st
  = run_body call_value (Instr (lower o) a v off) st.
Proof.
  unfold run_body. simpl. rewrite lower_idempotent. reflexivity.
Qed.

Lemma noop_step (call_value : value -> list value -> M value)
    (instr : Instruction) (fr : Frame) (h : heap) :
  is_noop instr ->
  run_body call_value instr (fr, h)
  = (Ok None, (set_ind_op (ind_op fr + 1) fr, h)).
Proof.
  unfold is_noop. intros Hin. unfold run_body.
  assert (Hcases : lower (opname instr) = "resume"
                   \/ lower (opname instr) = "push_null"
                   \/ lower (opname instr) = "precall"
                   \/ lower (opname instr) = "kw_names").
  { repeat (apply elem_of_cons in Hin as [Hin|Hin]; [auto|]).
    apply elem_of_nil in Hin. contradiction. }
  destruct Hcases as [-> | [-> | [-> | ->]]];
    simpl; unfold bind; simpl; rewrite Nat.eqb_refl; reflexivity.
Qed.

(** X12. A unit can end without a return.  From any point from which only
    opcodes with an empty handler remain ([RESUME], [PUSH_NULL], [PRECALL],
    [KW_NAMES], in any case), the loop runs off the end of the instruction
    list and [run] yields [None]; the stack and the heap are untouched.  In
    particular a frame whose [ind_op] is already past the end yields [None]
    at once. *)
Theorem run_off_the_end (fuel : nat) (fr : Frame) (h : heap) :
  Forall is_noop (drop (ind_op fr) (instructions fr)) ->
  (length (instructions fr) - ind_op fr < fuel)%nat ->
  run_loop fuel (fr, h)
  = (Ok VNone,
     (set_ind_op (Nat.max (ind_op fr) (length (instructions fr))) fr, h)).
Proof.
  revert fr. induction fuel as [|fuel IH]; intros fr Hnoop Hfuel; [lia|].
  destruct (instructions fr !! ind_op fr) as [instr|] eqn:Hi.
  - rewrite (run_loop_step fuel (fr, h) instr Hi).
    assert (Hlt : (ind_op fr < length (instructions fr))%nat)
      by (apply lookup_lt_Some in Hi; exact Hi).
    rewrite (drop_S _ _ _ Hi) in Hnoop. inversion Hnoop as [|? ? Hone Hrest].
    rewrite (noop_step _ instr fr h Hone).
    rewrite IH.
    + simpl. replace (Nat.max (ind_op fr + 1) (length (instructions fr)))
        with (Nat.max (ind_op fr) (length (instructions fr))) by lia.
      reflexivity.
    + simpl. replace (ind_op fr + 1)%nat with (S (ind_op fr)) by lia.
      exact Hrest.
    + simpl. lia.
  - rewrite (run_loop_end fuel (fr, h) Hi).
    apply lookup_ge_None_1 in Hi.
    replace (Nat.max (ind_op fr) (length (instructions fr))) with (ind_op fr)
      by lia.
    destruct fr; reflexivity.
Qed.

Lemma run_off_the_end_witness :
  let fr := run_prepare
              (Frame_init (Code 0 [] []
                             [Instr "RESUME" (Some 0) (VInt 0) 0;
                              Instr "PUSH_NULL" None VNone 2])
                 0%nat 0%nat 0%nat) in
  run_loop 3 (fr, [ODict ∅]) = (Ok VNone, (set_ind_op 2%nat fr, [ODict ∅])).
Proof.
  intros fr.
  apply (run_off_the_end 3 fr [ODict ∅]).
  - simpl. repeat constructor.
  - simpl. lia.
Defined.

(** ** Operators *)

Lemma pop_two (fr : Frame) (h : heap) (s : list value) (l r : value)
    {A} (k : value -> value -> M A) :
  data_stack fr = s ++ [l; r] ->
  (do right <- pop; do left <- pop; k right left) (fr, h)
  = k r l (set_data_stack s fr, h).
Proof.
  intros Hs. unfold bind at 1.
  rewrite (pop_last fr h (s ++ [l]) r)
    by (rewrite Hs, <- app_assoc; reflexivity).
  unfold bind at 1.
  rewrite (pop_last (set_data_stack (s ++ [l]) fr) h s l eq_refl).
  reflexivity.
Qed.

Lemma is_op_false (op a b : Z) :
  op <> a -> op <> b -> is_op (VInt op) a b = false.
Proof.
  intros Ha Hb. unfold is_op. simpl.
  apply Z.eqb_neq in Ha. apply Z.eqb_neq in Hb. rewrite Ha, Hb. reflexivity.
Qed.

(** X13. Every binary operator the handler knows has two codes, the plain
    one [op] (0 to 12, without 4, the matrix product) and the in-place one
    [op + 13], and [binary_op] treats the two alike. *)
Theorem binary_op_inplace_is_plain (op : Z) (st : state) :
  0 <= op <= 12 ->
  op <> 4 ->
  binary_op (VInt (op + 13)) st = binary_op (VInt op) st.
Proof.
  intros H H4.
  assert (Hcases : op = 0 \/ op = 1 \/ op = 2 \/ op = 3 \/ op = 5
                   \/ op = 6 \/ op = 7 \/ op = 8 \/ op = 9 \/ op = 10
                   \/ op = 11 \/ op = 12) by lia.
  intuition (subst op; reflexivity).
Qed.

Lemma binary_op_inplace_is_plain_witness :
  let st := (set_data_stack [VInt 7; VInt 2]
               (Frame_init (Code 0 [] [] []) 0%nat 0%nat 0%nat), []) in
  binary_op (VInt 23) st = binary_op (VInt 10) st.
Proof.
  intros st. apply (binary_op_inplace_is_plain 10 st); lia.
Defined.

(** X14. An operator code outside the table (below 0, above 25, or one of
    the two codes of the matrix product, 4 and 17) raises
    [NotImplementedError] naming the code, and it does so after the two
    operands were popped. *)
Theorem binary_op_unknown_code (fr : Frame) (h : heap) (s : list value)
    (l r : value) (op : Z) :
  data_stack fr = s ++ [l; r] ->
  op < 0 \/ 25 < op \/ op = 4 \/ op = 17 ->
  binary_op (VInt op) (fr, h)
  = (Raise (NotImplementedError ("Unknown binary operation: " +:+ pretty op)),
     (set_data_stack s fr, h)).
Proof.
  intros Hs Hop. unfold binary_op.
  rewrite (pop_two fr h s l r _ Hs).
  rewrite !is_op_false by lia. reflexivity.
Qed.

Lemma binary_op_unknown_code_witness :
  let fr := set_data_stack [VInt 1; VInt 2]
              (Frame_init (Code 0 [] [] []) 0%nat 0%nat 0%nat) in
  binary_op (VInt 4) (fr, [])
  = (Raise (NotImplementedError "Unknown binary operation: 4"),
     (set_data_stack [] fr, [])).
Proof.
  intros fr.
  apply (binary_op_unknown_code fr [] [] (VInt 1) (VInt 2) 4 eq_refl). lia.
Defined.

(** X15. The operands of [binary_op] are taken right first, then left: with
    [a] pushed before [b] the result is [a op b].  On integers the sum,
    difference and product replace the two operands; floor division and
    remainder do so for a divisor other than zero (rounding towards minus
    infinity, the remainder taking the sign of the divisor) and raise
    [ZeroDivisionError], the operands gone, for the divisor zero. *)
Theorem binary_op_on_integers (fr : Frame) (h : heap) (s : list value)
    (a b : Z) :
  data_stack fr = s ++ [VInt a; VInt b] ->
  let pushed (n : Z) := (Ok tt, (set_data_stack (s ++ [VInt n]) fr, h)) in
  let div_by_zero := (Raise ZeroDivisionError, (set_data_stack s fr, h)) in
  binary_op (VInt 0) (fr, h) = pushed (a + b)
  /\ binary_op (VInt 10) (fr, h) = pushed (a - b)
  /\ binary_op (VInt 5) (fr, h) = pushed (a * b)
  /\ binary_op (VInt 2) (fr, h)
     = (if b =? 0 then div_by_zero else pushed (a / b))
  /\ binary_op (VInt 6) (fr, h)
     = (if b =? 0 then div_by_zero else pushed (a mod b)).
Proof.
  intros Hs pushed div_by_zero. unfold binary_op.
  rewrite !(pop_two fr h s (VInt a) (VInt b) _ Hs).
  refine (conj _ (conj _ (conj _ (conj _ _)))); try reflexivity.
  - simpl. destruct (b =? 0); reflexivity.
  - simpl. destruct (b =? 0); reflexivity.
Qed.

Lemma binary_op_on_integers_witness :
  let fr := set_data_stack [VInt 7; VInt 2]
              (Frame_init (Code 0 [] [] []) 0%nat 0%nat 0%nat) in
  binary_op (VInt 10) (fr, []) = (Ok tt, (set_data_stack [VInt 5] fr, []))
  /\ binary_op (VInt 2) (fr, []) = (Ok tt, (set_data_stack [VInt 3] fr, [])).
Proof.
  intros fr.
  pose proof (binary_op_on_integers fr [] [] 7 2 eq_refl) as H.
  exact (conj (proj1 (proj2 H)) (proj1 (proj2 (proj2 (proj2 H))))).
Defined.

Lemma op_is_false (o s : string) : o <> s -> op_is (VStr o) s = false.
Proof. intros H. unfold op_is. apply String.eqb_neq. exact H. Qed.

(** X16. [compare_op] pops right then left and, on integers, pushes the
    truth value of [left op right] for the six order and equality
    operators.  The operator [BAD] raises [RuntimeError], and a name that is
    none of the twelve it knows raises [NotImplementedError] naming it; both
    do so after the two operands were popped. *)
Theorem compare_op_table (fr : Frame) (h : heap) (s : list value) :
  let popped := set_data_stack s fr in
  (forall a b, data_stack fr = s ++ [VInt a; VInt b] ->
     let pushed (t : bool) :=
       (Ok tt, (set_data_stack (s ++ [VBool t]) fr, h)) in
     compare_op (VStr "<") (fr, h) = pushed (a <? b)
     /\ compare_op (VStr "<=") (fr, h) = pushed (a <=? b)
     /\ compare_op (VStr "==") (fr, h) = pushed (a =? b)
     /\ compare_op (VStr "!=") (fr, h) = pushed (negb (a =? b))
     /\ compare_op (VStr ">") (fr, h) = pushed (b <? a)
     /\ compare_op (VStr ">=") (fr, h) = pushed (b <=? a))
  /\ (forall l r, data_stack fr = s ++ [l; r] ->
        compare_op (VStr "BAD") (fr, h)
        = (Raise (RuntimeError "Bad comparison op"), (popped, h)))
  /\ (forall l r o, data_stack fr = s ++ [l; r] ->
        o ∉ ["<"; "<="; "=="; "!="; ">"; ">="; "in"; "not in"; "is"; "is not";
             "exception match"; "BAD"] ->
        compare_op (VStr o) (fr, h)
        = (Raise (NotImplementedError ("Unknown compare operation: " +:+ o)),
           (popped, h))).
Proof.
  intros popped. refine (conj _ (conj _ _)).
  - intros a b Hs pushed. unfold compare_op.
    rewrite !(pop_two fr h s (VInt a) (VInt b) _ Hs).
    refine (conj _ (conj _ (conj _ (conj _ (conj _ _))))); try reflexivity.
    + simpl. unfold bind. simpl. rewrite Z.gtb_ltb. reflexivity.
    + simpl. unfold bind. simpl. rewrite Z.geb_leb. reflexivity.
  - intros l r Hs. unfold compare_op.
    rewrite (pop_two fr h s l r _ Hs). reflexivity.
  - intros l r o Hs Ho. unfold compare_op.
    rewrite (pop_two fr h s l r _ Hs).
    rewrite !op_is_false
      by (intros ->; apply Ho; repeat (first [apply list_elem_of_here
                                             | apply list_elem_of_further])).
    reflexivity.
Qed.

Lemma compare_op_table_witness :
  let fr := set_data_stack [VInt 3; VInt 4]
              (Frame_init (Code 0 [] [] []) 0%nat 0%nat 0%nat) in
  compare_op (VStr "<") (fr, []) = (Ok tt, (set_data_stack [VBool true] fr, []))
  /\ compare_op (VStr "BAD") (fr, [])
     = (Raise (RuntimeError "Bad comparison op"), (set_data_stack [] fr, [])).
Proof.
  intros fr.
  pose proof (compare_op_table fr [] []) as H.
  split.
  - exact (proj1 (proj1 H 3 4 eq_refl)).
  - exact (proj1 (proj2 H) (VInt 3) (VInt 4) eq_refl).
Defined.

(** ** Building and taking apart collections *)

Lemma take_top_exact (fr : Frame) (h : heap) (s items : list value) :
  data_stack fr = s ++ items ->
  items <> [] ->
  take_top (Z.of_nat (length items)) (fr, h)
  = (Ok items, (set_data_stack s fr, h)).
Proof.
  intros Hs Hne. unfold take_top, bind, get_frame, set_frame, ret. simpl.
  unfold py_slice_from, py_slice_to. rewrite Hs.
  assert (0 < length items)%nat by (destruct items; [congruence | simpl; lia]).
  rewrite slice_bound_top by (rewrite length_app; lia).
  replace (Z.to_nat (Z.of_nat (length (s ++ items)) - Z.of_nat (length items)))
    with (length s) by (rewrite length_app; lia).
  rewrite drop_app_length, take_app_length. reflexivity.
Qed.

Lemma take_top_beyond (fr : Frame) (h : heap) (n : Z) :
  Z.of_nat (length (data_stack fr)) < n ->
  take_top n (fr, h) = (Ok (data_stack fr), (set_data_stack [] fr, h)).
Proof.
  intros Hn. unfold take_top, bind, get_frame, set_frame, ret. simpl.
  unfold py_slice_from, py_slice_to.
  rewrite slice_bound_beyond by lia. reflexivity.
Qed.

Lemma count_nonzero (items : list value) :
  items <> [] -> (Z.of_nat (length items) =? 0) = false.
Proof.
  intros H. apply Z.eqb_neq. destruct items; [congruence | simpl; lia].
Qed.

(** X17. [build_tuple n] replaces the top [n] values of the stack by one
    tuple that holds them in stack order, the deepest first, and touches
    nothing below; [build_tuple 0] pushes the empty tuple.  A count above
    the depth of the stack is not an error: the whole stack goes into the
    tuple. *)
Theorem build_tuple_takes_top (fr : Frame) (h : heap) :
  build_tuple (VInt 0) (fr, h)
    = (Ok tt, (set_data_stack (data_stack fr ++ [VTuple []]) fr, h))
  /\ (forall s items, data_stack fr = s ++ items -> items <> [] ->
        build_tuple (VInt (Z.of_nat (length items))) (fr, h)
        = (Ok tt, (set_data_stack (s ++ [VTuple items]) fr, h)))
  /\ (forall n, Z.of_nat (length (data_stack fr)) < n ->
        build_tuple (VInt n) (fr, h)
        = (Ok tt, (set_data_stack [VTuple (data_stack fr)] fr, h))).
Proof.
  refine (conj _ (conj _ _)).
  - reflexivity.
  - intros s items Hs Hne. unfold build_tuple, bind at 1. simpl.
    rewrite (count_nonzero items Hne).
    unfold bind at 1, bind at 1. rewrite (take_top_exact fr h s items Hs Hne).
    reflexivity.
  - intros n Hn. unfold build_tuple, bind at 1. simpl.
    assert (E : (n =? 0) = false) by (apply Z.eqb_neq; lia).
    rewrite E. unfold bind at 1, bind at 1. rewrite (take_top_beyond fr h n Hn).
    reflexivity.
Qed.

Lemma build_tuple_takes_top_witness :
  let fr := set_data_stack [VInt 1; VInt 2; VInt 3]
              (Frame_init (Code 0 [] [] []) 0%nat 0%nat 0%nat) in
  build_tuple (VInt 2) (fr, [])
  = (Ok tt, (set_data_stack [VInt 1; VTuple [VInt 2; VInt 3]] fr, []))
  /\ build_tuple (VInt 5) (fr, [])
     = (Ok tt, (set_data_stack [VTuple [VInt 1; VInt 2; VInt 3]] fr, [])).
Proof.
  intros fr.
  pose proof (build_tuple_takes_top fr []) as H.
  split.
  - apply (proj1 (proj2 H) [VInt 1] [VInt 2; VInt 3] eq_refl). discriminate.
  - apply (proj2 (proj2 H) 5). simpl. lia.
Defined.

(** X18. [build_list n] puts the top [n] values, in stack order, into a list
    object at a location no object had before, and pushes the reference to
    it; every object that was in the heap is still there, unchanged. *)
Theorem build_list_allocates (fr : Frame) (h : heap) (s items : list value) :
  data_stack fr = s ++ items ->
  build_list (VInt (Z.of_nat (length items))) (fr, h)
    = (Ok tt, (set_data_stack (s ++ [VList (length h)]) fr, h ++ [OList items]))
  /\ h !! length h = None
  /\ forall l o, h !! l = Some o -> (h ++ [OList items]) !! l = Some o.
Proof.
  intros Hs. refine (conj _ (conj _ _)).
  - unfold build_list, bind at 1. simpl.
    destruct items as [|v items].
    + rewrite app_nil_r in Hs. rewrite <- Hs. reflexivity.
    + rewrite (count_nonzero (v :: items)) by discriminate.
      unfold bind at 1, bind at 1.
      rewrite (take_top_exact fr h s (v :: items) Hs) by discriminate.
      reflexivity.
  - apply lookup_ge_None_2. lia.
  - intros l o Hl. apply lookup_app_l_Some. exact Hl.
Qed.

Lemma build_list_allocates_witness :
  let fr := set_data_stack [VInt 1; VInt 2; VInt 3]
              (Frame_init (Code 0 [] [] []) 0%nat 0%nat 0%nat) in
  build_list (VInt 2) (fr, [ODict ∅])
  = (Ok tt, (set_data_stack [VInt 1; VList 1%nat] fr,
             [ODict ∅; OList [VInt 2; VInt 3]])).
Proof.
  intros fr.
  exact (proj1 (build_list_allocates fr [ODict ∅] [VInt 1] [VInt 2; VInt 3]
                  eq_refl)).
Defined.

Lemma unpack_whole (fr : Frame) (h : heap) (s : list value) (seq : value)
    (items : list value) :
  data_stack fr = s ++ [seq] ->
  is_sequence seq h items ->
  unpack_sequence (VInt (Z.of_nat (length items))) (fr, h)
  = (Ok tt, (set_data_stack (s ++ rev items) fr, h)).
Proof.
  intros Hs Hseq. unfold unpack_sequence, bind at 1. simpl.
  rewrite Hs, py_index_last. unfold bind at 1.
  rewrite (py_len_sequence _ _ _ _ Hseq). simpl.
  rewrite Z.eqb_refl. simpl. unfold bind at 1.
  rewrite (pop_last _ _ _ _ Hs). unfold bind at 1.
  rewrite (py_elements_sequence _ _ _ _ Hseq).
  rewrite py_slice_rev_to_whole. reflexivity.
Qed.

(** X19. Building a tuple or a list from the top [n] values and unpacking it
    at once into [n] values reverses these [n] values on the stack: the one
    that was deepest ends on top. *)
Theorem build_then_unpack_reverses (fr : Frame) (h : heap)
    (s items : list value) :
  data_stack fr = s ++ items ->
  items <> [] ->
  let n := VInt (Z.of_nat (length items)) in
  (do _ <- build_tuple n; unpack_sequence n) (fr, h)
    = (Ok tt, (set_data_stack (s ++ rev items) fr, h))
  /\ (do _ <- build_list n; unpack_sequence n) (fr, h)
     = (Ok tt, (set_data_stack (s ++ rev items) fr, h ++ [OList items])).
Proof.
  intros Hs Hne n. unfold n. split.
  - unfold bind at 1, build_tuple, bind at 1. simpl.
    rewrite (count_nonzero items Hne).
    unfold bind at 1, bind at 1. rewrite (take_top_exact fr h s items Hs Hne).
    exact (unpack_whole (set_data_stack (s ++ [VTuple items]) fr) h s
             (VTuple items) items eq_refl (or_introl eq_refl)).
  - unfold bind at 1, build_list, bind at 1. simpl.
    rewrite (count_nonzero items Hne).
    unfold bind at 1, bind at 1, bind at 1.
    rewrite (take_top_exact fr h s items Hs Hne).
    exact (unpack_whole (set_data_stack (s ++ [VList (length h)]) fr)
             (h ++ [OList items]) s (VList (length h)) items eq_refl
             (or_intror (ex_intro _ (length h)
                           (conj eq_refl (heap_lookup_last h (OList items)))))).
Qed.

Lemma build_then_unpack_reverses_witness :
  let fr := set_data_stack [VInt 1; VInt 2; VInt 3]
              (Frame_init (Code 0 [] [] []) 0%nat 0%nat 0%nat) in
  (do _ <- build_tuple (VInt 2); unpack_sequence (VInt 2)) (fr, [])
  = (Ok tt, (set_data_stack [VInt 1; VInt 3; VInt 2] fr, [])).
Proof.
  intros fr.
  apply (proj1 (build_then_unpack_reverses fr [] [VInt 1] [VInt 2; VInt 3]
                  eq_refl ltac:(discriminate))).
Defined.

(** ** [copy] and [swap] *)

Lemma py_index_from_top {A} (a : list A) (x : A) (b : list A) :
  py_index (a ++ x :: b) (- (Z.of_nat (length b) + 1)) = Some x.
Proof.
  unfold py_index. rewrite length_app. simpl length.
  assert (E0 : (- (Z.of_nat (length b) + 1) <? 0) = true) by (apply Z.ltb_lt; lia).
  rewrite E0.
  assert (E1 : (0 <=? - (Z.of_nat (length b) + 1)
                      + Z.of_nat (length a + S (length b))) = true)
    by (apply Z.leb_le; lia).
  assert (E2 : (- (Z.of_nat (length b) + 1) + Z.of_nat (length a + S (length b))
                <? Z.of_nat (length a + S (length b))) = true)
    by (apply Z.ltb_lt; lia).
  rewrite E1, E2. simpl.
  replace (Z.to_nat (- (Z.of_nat (length b) + 1)
                     + Z.of_nat (length a + S (length b))))
    with (length a) by lia.
  apply list_lookup_middle. reflexivity.
Qed.

Lemma py_set_index_from_top {A} (a : list A) (x y : A) (b : list A) :
  py_set_index (a ++ x :: b) (- (Z.of_nat (length b) + 1)) y
  = Some (a ++ y :: b).
Proof.
  unfold py_set_index. rewrite length_app. simpl length.
  assert (E0 : (- (Z.of_nat (length b) + 1) <? 0) = true) by (apply Z.ltb_lt; lia).
  rewrite E0.
  assert (E1 : (0 <=? - (Z.of_nat (length b) + 1)
                      + Z.of_nat (length a + S (length b))) = true)
    by (apply Z.leb_le; lia).
  assert (E2 : (- (Z.of_nat (length b) + 1) + Z.of_nat (length a + S (length b))
                <? Z.of_nat (length a + S (length b))) = true)
    by (apply Z.ltb_lt; lia).
  rewrite E1, E2. simpl.
  replace (Z.to_nat (- (Z.of_nat (length b) + 1)
                     + Z.of_nat (length a + S (length b))))
    with (length a + 0)%nat by lia.
  rewrite insert_app_r. reflexivity.
Qed.

Lemma py_index_below {A} (l : list A) (i : Z) :
  Z.of_nat (length l) < i -> py_index l (- i) = None.
Proof.
  intros H. unfold py_index.
  assert (E0 : (- i <? 0) = true) by (apply Z.ltb_lt; lia).
  assert (E1 : (0 <=? - i + Z.of_nat (length l)) = false) by (apply Z.leb_gt; lia).
  rewrite E0, E1. reflexivity.
Qed.

(** X20. [copy i] pushes a copy of the value [i] places from the top
    ([i = 1] is the top itself) and leaves all that was there.  An [i] that
    is not positive fails the assertion, an [i] above the depth of the
    stack raises [IndexError]; neither changes the stack. *)
Theorem copy_ith_from_top (fr : Frame) (h : heap) :
  (forall a x b, data_stack fr = a ++ x :: b ->
     copy (VInt (Z.of_nat (length b) + 1)) (fr, h)
     = (Ok tt, (set_data_stack (a ++ x :: b ++ [x]) fr, h)))
  /\ (forall i, i <= 0 -> copy (VInt i) (fr, h) = (Raise AssertionError, (fr, h)))
  /\ (forall i, Z.of_nat (length (data_stack fr)) < i ->
        copy (VInt i) (fr, h) = (Raise IndexError, (fr, h))).
Proof.
  refine (conj _ (conj _ _)).
  - intros a x b Hs. unfold copy, bind at 1. simpl.
    assert (E : (Z.of_nat (length b) + 1 >? 0) = true) by (apply Z.gtb_lt; lia).
    rewrite E. simpl. unfold bind at 1. simpl.
    rewrite Hs, py_index_from_top. rewrite push_app, Hs, <- app_assoc.
    reflexivity.
  - intros i Hi. unfold copy, bind at 1. simpl.
    assert (E : (i >? 0) = false) by (rewrite Z.gtb_ltb; apply Z.ltb_ge; lia).
    rewrite E. reflexivity.
  - intros i Hi. unfold copy, bind at 1. simpl.
    assert (E : (i >? 0) = true) by (apply Z.gtb_lt; lia).
    rewrite E. simpl. unfold bind at 1. simpl.
    rewrite (py_index_below _ i Hi). reflexivity.
Qed.

Lemma copy_ith_from_top_witness :
  let fr := set_data_stack [VInt 1; VInt 2; VInt 3]
              (Frame_init (Code 0 [] [] []) 0%nat 0%nat 0%nat) in
  copy (VInt 2) (fr, [])
  = (Ok tt, (set_data_stack [VInt 1; VInt 2; VInt 3; VInt 2] fr, []))
  /\ copy (VInt 0) (fr, []) = (Raise AssertionError, (fr, []))
  /\ copy (VInt 4) (fr, []) = (Raise IndexError, (fr, [])).
Proof.
  intros fr.
  pose proof (copy_ith_from_top fr []) as H.
  refine (conj _ (conj _ _)).
  - exact (proj1 H [VInt 1] (VInt 2) [VInt 3] eq_refl).
  - apply (proj1 (proj2 H) 0). lia.
  - apply (proj2 (proj2 H) 4). simpl. lia.
Defined.

Lemma swap_exact (fr : Frame) (h : heap) (a : list value) (x : value)
    (b : list value) (y : value) :
  data_stack fr = a ++ x :: b ++ [y] ->
  swap (VInt (Z.of_nat (length b) + 2)) (fr, h)
  = (Ok tt, (set_data_stack (a ++ y :: b ++ [x]) fr, h)).
Proof.
  intros Hs. unfold swap, bind at 1. simpl. unfold bind at 1. simpl.
  rewrite Hs.
  replace (a ++ x :: b ++ [y]) with ((a ++ x :: b) ++ [y])
    by (rewrite <- app_assoc; reflexivity).
  rewrite py_index_last.
  replace ((a ++ x :: b) ++ [y]) with (a ++ x :: (b ++ [y]))
    by (rewrite <- app_assoc; reflexivity).
  replace (- (Z.of_nat (length b) + 2))
    with (- (Z.of_nat (length (b ++ [y])) + 1))
    by (rewrite length_app; simpl; lia).
  rewrite py_index_from_top, py_set_index_from_top.
  replace (a ++ y :: b ++ [y]) with ((a ++ y :: b) ++ [y])
    by (rewrite <- app_assoc; reflexivity).
  replace (-1) with (- (Z.of_nat (length (@nil value)) + 1)) by reflexivity.
  rewrite py_set_index_from_top.
  rewrite <- app_assoc. reflexivity.
Qed.

(** X21. [swap i] exchanges the top of the stack with the value [i] places
    from the top and leaves every other value in place; done twice it
    restores the stack.  [swap 1] changes nothing.  An [i] above the depth of
    the stack raises [IndexError] and changes nothing. *)
Theorem swap_exchanges (fr : Frame) (h : heap) :
  (forall a x b y, data_stack fr = a ++ x :: b ++ [y] ->
     let i := VInt (Z.of_nat (length b) + 2) in
     swap i (fr, h) = (Ok tt, (set_data_stack (a ++ y :: b ++ [x]) fr, h))
     /\ (do _ <- swap i; swap i) (fr, h) = (Ok tt, (fr, h)))
  /\ (forall a y, data_stack fr = a ++ [y] ->
        swap (VInt 1) (fr, h) = (Ok tt, (fr, h)))
  /\ (forall i, Z.of_nat (length (data_stack fr)) < i ->
        swap (VInt i) (fr, h) = (Raise IndexError, (fr, h))).
Proof.
  refine (conj _ (conj _ _)).
  - intros a x b y Hs i. unfold i.
    pose proof (swap_exact fr h a x b y Hs) as H1. split; [exact H1|].
    unfold bind. rewrite H1.
    rewrite (swap_exact (set_data_stack (a ++ y :: b ++ [x]) fr) h a y b x eq_refl).
    rewrite set_data_stack_twice, <- Hs, set_data_stack_id. reflexivity.
  - intros a y Hs. unfold swap, bind at 1. simpl. unfold bind at 1. simpl.
    change (Z.opp 1) with (-1). rewrite Hs, !py_index_last.
    replace (-1) with (- (Z.of_nat (length (@nil value)) + 1)) by reflexivity.
    rewrite !py_set_index_from_top.
    unfold set_frame. rewrite <- Hs, set_data_stack_id. reflexivity.
  - intros i Hi. unfold swap, bind at 1. simpl. unfold bind at 1. simpl.
    rewrite (py_index_below _ i Hi).
    destruct (py_index (data_stack fr) (-1)); reflexivity.
Qed.

Lemma swap_exchanges_witness :
  let fr := set_data_stack [VInt 1; VInt 2; VInt 3; VInt 4]
              (Frame_init (Code 0 [] [] []) 0%nat 0%nat 0%nat) in
  swap (VInt 3) (fr, [])
  = (Ok tt, (set_data_stack [VInt 1; VInt 4; VInt 3; VInt 2] fr, []))
  /\ swap (VInt 5) (fr, []) = (Raise IndexError, (fr, [])).
Proof.
  intros fr.
  pose proof (swap_exchanges fr []) as H.
  split.
  - exact (proj1 (proj1 H [VInt 1] (VInt 2) [VInt 3] (VInt 4) eq_refl)).
  - apply (proj2 (proj2 H) 5). simpl. lia.
Defined.

(** ** Strings, slices, lists *)

Lemma string_append_assoc (a b c : string) : (a +:+ b) +:+ c = a +:+ (b +:+ c).
Proof.
  induction a as [|x a IH]; [reflexivity|].
  change (String x ((a +:+ b) +:+ c) = String x (a +:+ (b +:+ c))).
  rewrite IH. reflexivity.
Qed.

Lemma string_append_empty (a : string) : a +:+ "" = a.
Proof.
  induction a as [|x a IH]; [reflexivity|].
  change (String x (a +:+ "") = String x a). rewrite IH. reflexivity.
Qed.

Lemma concat_all_snoc (strs : list string) (t res : string) :
  concat_all (strs ++ [t]) +:+ res = concat_all strs +:+ (t +:+ res).
Proof.
  induction strs as [|x strs IH].
  - simpl. rewrite string_append_empty. reflexivity.
  - change (concat_all ((x :: strs) ++ [t])) with (x +:+ concat_all (strs ++ [t])).
    change (concat_all (x :: strs)) with (x +:+ concat_all strs).
    rewrite !string_append_assoc, IH. reflexivity.
Qed.

Lemma build_string_loop_strings (strs : list string) (h : heap) :
  forall (fr : Frame) (s : list value) (res : string),
    data_stack fr = s ++ (VStr <$> strs) ->
    build_string_loop (length strs) (VStr res) (fr, h)
    = (Ok (VStr (concat_all strs +:+ res)), (set_data_stack s fr, h)).
Proof.
  induction strs as [|t strs IH] using rev_ind; intros fr s res Hs.
  - simpl in *. rewrite app_nil_r in Hs. rewrite <- Hs, set_data_stack_id.
    reflexivity.
  - rewrite length_app. simpl length.
    replace (length strs + 1)%nat with (S (length strs)) by lia.
    simpl. unfold bind at 1.
    rewrite (pop_last fr h (s ++ (VStr <$> strs)) (VStr t))
      by (rewrite Hs, fmap_app, app_assoc; reflexivity).
    unfold bind at 1. simpl.
    rewrite (IH (set_data_stack (s ++ (VStr <$> strs)) fr) s (t +:+ res) eq_refl).
    rewrite concat_all_snoc. reflexivity.
Qed.

(** X22. [build_string n] replaces the top [n] strings of the stack by their
    concatenation in stack order, the deepest first; [build_string 0] pushes
    the empty string. *)
Theorem build_string_concatenates (fr : Frame) (h : heap) (s : list value)
    (strs : list string) :
  data_stack fr = s ++ (VStr <$> strs) ->
  build_string (VInt (Z.of_nat (length strs))) (fr, h)
  = (Ok tt, (set_data_stack (s ++ [VStr (concat_all strs)]) fr, h)).
Proof.
  intros Hs. unfold build_string, bind at 1. simpl. unfold bind at 1.
  rewrite Nat2Z.id.
  rewrite (build_string_loop_strings strs h fr s "" Hs).
  rewrite string_append_empty. reflexivity.
Qed.

Lemma build_string_concatenates_witness :
  let fr := set_data_stack [VInt 0; VStr "ab"; VStr "c"; VStr "de"]
              (Frame_init (Code 0 [] [] []) 0%nat 0%nat 0%nat) in
  build_string (VInt 3) (fr, [])
  = (Ok tt, (set_data_stack [VInt 0; VStr "abcde"] fr, [])).
Proof.
  intros fr.
  exact (build_string_concatenates fr [] [VInt 0] ["ab"; "c"; "de"] eq_refl).
Defined.

(** X23. [build_slice] with 2 pops the end, then the start, and pushes the
    slice [start:end]; with 3 it pops the step first and pushes
    [start:end:step].  With any other count it does nothing at all: nothing
    is popped, nothing is pushed and no error is raised. *)
Theorem build_slice_counts (fr : Frame) (h : heap) (s : list value) :
  (forall start stop, data_stack fr = s ++ [start; stop] ->
     build_slice (VInt 2) (fr, h)
     = (Ok tt, (set_data_stack (s ++ [VSlice start stop VNone]) fr, h)))
  /\ (forall start stop step, data_stack fr = s ++ [start; stop; step] ->
        build_slice (VInt 3) (fr, h)
        = (Ok tt, (set_data_stack (s ++ [VSlice start stop step]) fr, h)))
  /\ (forall argc, argc <> 2 -> argc <> 3 ->
        build_slice (VInt argc) (fr, h) = (Ok tt, (fr, h))).
Proof.
  refine (conj _ (conj _ _)).
  - intros start stop Hs. unfold build_slice. simpl.
    rewrite (pop_two fr h s start stop _ Hs). reflexivity.
  - intros start stop step Hs. unfold build_slice. simpl.
    unfold bind at 1.
    rewrite (pop_last fr h (s ++ [start; stop]) step)
      by (rewrite Hs, <- app_assoc; reflexivity).
    rewrite (pop_two (set_data_stack (s ++ [start; stop]) fr) h s start stop _
               eq_refl).
    reflexivity.
  - intros argc H2 H3. unfold build_slice.
    rewrite !is_op_false by assumption. reflexivity.
Qed.

Lemma build_slice_counts_witness :
  let fr := set_data_stack [VInt 1; VInt 5]
              (Frame_init (Code 0 [] [] []) 0%nat 0%nat 0%nat) in
  build_slice (VInt 2) (fr, [])
  = (Ok tt, (set_data_stack [VSlice (VInt 1) (VInt 5) VNone] fr, []))
  /\ build_slice (VInt 1) (fr, []) = (Ok tt, (fr, [])).
Proof.
  intros fr.
  pose proof (build_slice_counts fr [] []) as H.
  split.
  - exact (proj1 H (VInt 1) (VInt 5) eq_refl).
  - apply (proj2 (proj2 H) 1); lia.
Defined.

(** X24. [list_extend i] pops the sequence on top and appends its elements
    to the list that is then [i] places from the top.  The list is extended
    in place: the stack keeps the same reference and no object is
    allocated. *)
Theorem list_extend_in_place (fr : Frame) (h : heap) (a b : list value)
    (l : loc) (seq : value) (items new : list value) :
  data_stack fr = a ++ VList l :: b ++ [seq] ->
  h !! l = Some (OList items) ->
  is_sequence seq h new ->
  list_extend (VInt (Z.of_nat (length b) + 1)) (fr, h)
  = (Ok tt, (set_data_stack (a ++ VList l :: b) fr,
             <[l := OList (items ++ new)]> h))
  /\ length (<[l := OList (items ++ new)]> h) = length h.
Proof.
  intros Hs Hl Hseq. split; [|apply length_insert].
  unfold list_extend, bind at 1.
  rewrite (pop_last fr h (a ++ VList l :: b) seq)
    by (rewrite Hs, <- app_assoc; reflexivity).
  unfold bind at 1. simpl. unfold bind at 1. simpl.
  rewrite py_index_from_top.
  unfold bind at 1. rewrite (py_elements_sequence _ _ _ _ Hseq).
  unfold bind at 1, read_list, bind at 1. simpl. rewrite Hl. reflexivity.
Qed.

Lemma list_extend_in_place_witness :
  let fr := set_data_stack [VList 0%nat; VTuple [VInt 3; VInt 4]]
              (Frame_init (Code 0 [] [] []) 0%nat 0%nat 0%nat) in
  list_extend (VInt 1) (fr, [OList [VInt 1; VInt 2]])
  = (Ok tt, (set_data_stack [VList 0%nat] fr,
             [OList [VInt 1; VInt 2; VInt 3; VInt 4]])).
Proof.
  intros fr.
  exact (proj1 (list_extend_in_place fr [OList [VInt 1; VInt 2]] [] []
                  0%nat (VTuple [VInt 3; VInt 4]) [VInt 1; VInt 2]
                  [VInt 3; VInt 4] eq_refl eq_refl (or_introl eq_refl))).
Defined.

Lemma py_index_set_index {A} (l l' : list A) (i : Z) (x : A) :
  py_set_index l i x = Some l' -> py_index l' i = Some x.
Proof.
  unfold py_set_index, py_index. intros H.
  destruct ((0 <=? (if i <? 0 then i + Z.of_nat (length l) else i))
            && ((if i <? 0 then i + Z.of_nat (length l) else i)
                <? Z.of_nat (length l))) eqn:E; [|discriminate H].
  inversion H. subst l'. rewrite length_insert, E.
  apply list_lookup_insert_eq.
  apply andb_true_iff in E as [E1 E2].
  apply Z.leb_le in E1. apply Z.ltb_lt in E2. lia.
Qed.

Lemma binary_subscr_list (fr : Frame) (h : heap) (s : list value) (l : loc)
    (i : Z) (items : list value) (x : value) :
  data_stack fr = s ++ [VList l; VInt i] ->
  h !! l = Some (OList items) ->
  py_index items i = Some x ->
  binary_subscr VNone (fr, h) = (Ok tt, (set_data_stack (s ++ [x]) fr, h)).
Proof.
  intros Hs Hl Hx. unfold binary_subscr.
  rewrite (pop_two fr h s (VList l) (VInt i) _ Hs).
  unfold bind at 1, py_getitem, bind at 1, py_elements, read_list, bind at 1.
  simpl. rewrite Hl. simpl. rewrite Hx. reflexivity.
Qed.

(** X25. [store_subscr] takes, from the top, the key, the container and the
    value.  On a list and an index within its bounds (negative indices count
    from the end) it writes the element in place, and reading the same index
    back with [binary_subscr] pushes the value that was stored.  An index
    out of bounds raises [IndexError] after the three operands were popped,
    the list unchanged. *)
Theorem store_subscr_then_binary_subscr (fr : Frame) (h : heap)
    (s : list value) (v : value) (l : loc) (i : Z) (items : list value) :
  data_stack fr = s ++ [v; VList l; VInt i] ->
  h !! l = Some (OList items) ->
  match py_set_index items i v with
  | Some items' =>
      store_subscr VNone (fr, h)
        = (Ok tt, (set_data_stack s fr, <[l := OList items']> h))
      /\ (do _ <- store_subscr VNone;
          do _ <- push [VList l; VInt i];
          binary_subscr VNone) (fr, h)
         = (Ok tt, (set_data_stack (s ++ [v]) fr, <[l := OList items']> h))
  | None =>
      store_subscr VNone (fr, h) = (Raise IndexError, (set_data_stack s fr, h))
  end.
Proof.
  intros Hs Hl.
  assert (Hstore : store_subscr VNone (fr, h)
                   = py_setitem (VList l) (VInt i) v (set_data_stack s fr, h)).
  { unfold store_subscr, bind at 1.
    rewrite (pop_last fr h (s ++ [v; VList l]) (VInt i))
      by (rewrite Hs, <- app_assoc; reflexivity).
    unfold bind at 1.
    rewrite (pop_last _ h (s ++ [v]) (VList l))
      by (simpl; rewrite <- app_assoc; reflexivity).
    unfold bind at 1.
    rewrite (pop_last _ h s v) by reflexivity.
    reflexivity. }
  assert (Hset : py_setitem (VList l) (VInt i) v (set_data_stack s fr, h)
                 = match py_set_index items i v with
                   | Some items' =>
                       (Ok tt, (set_data_stack s fr, <[l := OList items']> h))
                   | None => (Raise IndexError, (set_data_stack s fr, h))
                   end).
  { unfold py_setitem, bind at 1, read_list, bind at 1. simpl. rewrite Hl.
    simpl. destruct (py_set_index items i v); reflexivity. }
  rewrite Hset in Hstore.
  destruct (py_set_index items i v) as [items'|] eqn:E; [|exact Hstore].
  split; [exact Hstore|].
  unfold bind at 1. rewrite Hstore. unfold bind at 1. rewrite push_app.
  rewrite (binary_subscr_list _ (<[l := OList items']> h) s l i items' v).
  - reflexivity.
  - reflexivity.
  - apply list_lookup_insert_eq. apply lookup_lt_Some in Hl. exact Hl.
  - exact (py_index_set_index items items' i v E).
Qed.

Lemma store_subscr_then_binary_subscr_witness :
  let fr := set_data_stack [VInt 9; VList 0%nat; VInt (-1)]
              (Frame_init (Code 0 [] [] []) 0%nat 0%nat 0%nat) in
  store_subscr VNone (fr, [OList [VInt 1; VInt 2]])
  = (Ok tt, (set_data_stack [] fr, [OList [VInt 1; VInt 9]])).
Proof.
  intros fr.
  exact (proj1 (store_subscr_then_binary_subscr fr [OList [VInt 1; VInt 2]] []
                  (VInt 9) 0%nat (-1) [VInt 1; VInt 2] eq_refl eq_refl)).
Defined.

(** ** Building and calling functions *)

Lemma pop_mk (c : CodeType) (b g l : loc) (s : list value) (v k : value)
    (i : nat) (ins : list Instruction) (tbl : gmap Z nat) (r : value) (h : heap) :
  pop (mkFrame c b g l (s ++ [v]) k i ins tbl r, h)
  = (Ok v, (mkFrame c b g l s k i ins tbl r, h)).
Proof. exact (pop_last (mkFrame c b g l (s ++ [v]) k i ins tbl r) h s v eq_refl). Qed.

(** X26. [make_function] consumes the code and exactly the components its
    flags announce, which it expects above the code in the order defaults
    (0x01), keyword defaults (0x02), annotations (0x04), closure cells
    (0x08), the last on top.  The function it pushes keeps the code, the
    positional defaults if there are any, and the scopes of the building
    frame; keyword defaults, annotations and closure cells are popped and
    dropped. *)
Theorem make_function_consumes_flagged (fr : Frame) (h : heap) (s : list value)
    (code defaults kwdefaults annotations closure : value)
    (has_defaults has_kwdefaults has_annotations has_closure : bool) :
  let opt (present : bool) (v : value) : list value :=
    if present then [v] else [] in
  let bit (present : bool) (weight : Z) : Z := if present then weight else 0 in
  data_stack fr
  = s ++ [code] ++ opt has_defaults defaults ++ opt has_kwdefaults kwdefaults
      ++ opt has_annotations annotations ++ opt has_closure closure ->
  make_function
    (VInt (bit has_defaults 1 + bit has_kwdefaults 2 + bit has_annotations 4
           + bit has_closure 8)) (fr, h)
  = (Ok tt,
     (set_data_stack
        (s ++ [VFunction
                 (Closure (builtins fr) (globals fr) (locals fr) code
                    (if has_defaults then Some defaults else None))]) fr,
      h)).
Proof.
  intros opt bit Hs. destruct fr as [c b g l st k i ins tbl r].
  simpl in Hs. subst st. unfold opt, bit.
  destruct has_defaults, has_kwdefaults, has_annotations, has_closure;
    unfold make_function, pop_if_flag; simpl Z.add; simpl Z.land; simpl Z.eqb;
    cbn [as_int app];
    repeat match goal with
           | |- context [mkFrame c b g l (?x ++ ?y :: ?z :: ?t) k i ins tbl r] =>
               replace (x ++ y :: z :: t) with ((x ++ [y]) ++ z :: t)
                 by (rewrite <- app_assoc; reflexivity)
           end;
    unfold bind at 1; simpl;
    repeat (unfold bind at 1; rewrite ?pop_mk; simpl);
    reflexivity.
Qed.

Lemma make_function_consumes_flagged_witness :
  let inner := Code 0 [] [] [] in
  let fr := set_data_stack [VInt 0; VCode inner; VTuple [VInt 1]; VTuple []]
              (Frame_init (Code 0 [] [] []) 0%nat 1%nat 2%nat) in
  make_function (VInt 9) (fr, [])
  = (Ok tt,
     (set_data_stack
        [VInt 0;
         VFunction (Closure 0%nat 1%nat 2%nat (VCode inner)
                      (Some (VTuple [VInt 1])))] fr, [])).
Proof.
  intros inner fr.
  exact (make_function_consumes_flagged fr [] [VInt 0] (VCode inner)
           (VTuple [VInt 1]) VNone VNone (VTuple []) true false false true
           eq_refl).
Defined.

Lemma bind_parameters_positional (c : CodeType) (defaults : option value)
    (args : list value) (range : list nat) (parsed : gmap string value)
    (st : state) :
  Forall (fun i => (i < length args)%nat /\ (i < length (co_varnames c))%nat)
         range ->
  exists parsed',
    bind_parameters c defaults args parsed range st = (Ok parsed', st)
    /\ forall x,
         (parsed' !! x = parsed !! x
          /\ forall i, i ∈ range -> co_varnames c !! i <> Some x)
         \/ exists i, i ∈ range /\ co_varnames c !! i = Some x
                      /\ parsed' !! x = args !! i.
Proof.
  intros Hrange. revert parsed.
  induction Hrange as [|i range [Hia Hin] Hrange IH]; intros parsed.
  - exists parsed. split; [reflexivity|]. intros x. left.
    split; [reflexivity|]. intros i Hi. apply elem_of_nil in Hi. contradiction.
  - destruct (lookup_lt_is_Some_2 args i Hia) as [a Ha].
    destruct (lookup_lt_is_Some_2 (co_varnames c) i Hin) as [y Hy].
    destruct (IH (<[y := a]> parsed)) as (p2 & Hrest & Hp2).
    exists p2. split.
    + simpl. unfold bind at 1, bind_parameter. rewrite Ha.
      unfold bind at 1, varname. rewrite Hy. exact Hrest.
    + intros x. destruct (Hp2 x) as [[Hsame Hnone] | (j & Hj & Hjx & Hval)].
      * destruct (decide (y = x)) as [-> | Hne].
        { right. exists i. split; [apply list_elem_of_here|].
          split; [exact Hy|]. rewrite Hsame, lookup_insert_eq, Ha. reflexivity. }
        left. split.
        { rewrite Hsame. apply lookup_insert_ne. exact Hne. }
        intros j Hj. apply elem_of_cons in Hj as [-> | Hj].
        { rewrite Hy. congruence. }
        exact (Hnone j Hj).
      * right. exists j. split; [apply list_elem_of_further; exact Hj|].
        split; [exact Hjx | exact Hval].
Qed.

(** X27. A call that gives every parameter positionally never reads the
    defaults: it binds whether the function was built with defaults or not.
    Each parameter gets the argument at its index, positional arguments
    beyond the last parameter are dropped without an error, and nothing but
    the parameters is bound (keyword arguments apart). *)
Theorem positional_call_binds (b g l : loc) (c : CodeType)
    (defaults : option value) (args : list value)
    (kwargs : gmap string value) (st : state) :
  (co_argcount c <= length args)%nat ->
  (co_argcount c <= length (co_varnames c))%nat ->
  NoDup (take (co_argcount c) (co_varnames c)) ->
  exists bound,
    parse_args (Closure b g l (VCode c) defaults) args kwargs st
      = (Ok (kwargs ∪ bound), st)
    /\ (forall i x, (i < co_argcount c)%nat -> co_varnames c !! i = Some x ->
          bound !! x = args !! i)
    /\ (forall x, x ∉ take (co_argcount c) (co_varnames c) -> bound !! x = None).
Proof.
  intros Hargs Hnames Hdup.
  destruct (bind_parameters_positional c defaults args (seq 0 (co_argcount c))
              ∅ st) as (bound & Hbind & Hbound).
  { apply Forall_forall. intros i Hi. apply elem_of_seq in Hi. lia. }
  exists bound. split.
  { unfold parse_args, bind at 1. simpl. unfold bind. rewrite Hbind. reflexivity. }
  split.
  - intros i x Hi Hx.
    destruct (Hbound x) as [[_ Hnone] | (j & Hj & Hjx & Hval)].
    + exfalso. apply (Hnone i); [apply elem_of_seq; lia | exact Hx].
    + apply elem_of_seq in Hj.
      assert (j = i).
      { apply (NoDup_lookup _ j i x Hdup);
          rewrite lookup_take_lt by lia; assumption. }
      subst j. exact Hval.
  - intros x Hx.
    destruct (Hbound x) as [[Hsame _] | (j & Hj & Hjx & _)].
    + rewrite Hsame. apply lookup_empty.
    + exfalso. apply Hx. apply elem_of_seq in Hj.
      apply list_elem_of_lookup. exists j.
      rewrite lookup_take_lt by lia. exact Hjx.
Qed.

Lemma positional_call_binds_witness :
  let c := Code 2 ["a"; "b"; "tmp"] [] [] in
  let st := (Frame_init c 0%nat 0%nat 0%nat, [ODict ∅]) in
  exists bound,
    parse_args (Closure 0%nat 0%nat 0%nat (VCode c) None)
      [VInt 1; VInt 2; VInt 3] ∅ st = (Ok (∅ ∪ bound), st)
    /\ bound !! "a" = Some (VInt 1) /\ bound !! "b" = Some (VInt 2)
    /\ bound !! "tmp" = None.
Proof.
  intros c st.
  destruct (positional_call_binds 0%nat 0%nat 0%nat c None
              [VInt 1; VInt 2; VInt 3] ∅ st)
    as (bound & Hparse & Hpos & Hother).
  - simpl. lia.
  - simpl. lia.
  - simpl. apply NoDup_ListNoDup.
    repeat (constructor; [simpl; intuition discriminate|]). constructor.
  - exists bound. split; [exact Hparse|].
    split; [exact (Hpos 0%nat "a" ltac:(simpl; lia) eq_refl)|].
    split; [exact (Hpos 1%nat "b" ltac:(simpl; lia) eq_refl)|].
    apply Hother. simpl. intros Hin.
    repeat (apply elem_of_cons in Hin as [Hin|Hin]; [discriminate Hin|]).
    apply elem_of_nil in Hin. exact Hin.
Defined.

(** ** What a run leaves alone *)

Section Keeps.
Context (R : state -> state -> Prop).
Hypothesis R_refl : forall st, R st st.
Hypothesis R_trans : forall a b c, R a b -> R b c -> R a c.

Lemma keeps_ret {A} (a : A) : keeps R (ret a).
Proof. intros st. apply R_refl. Qed.

Lemma keeps_raise {A} (e : exn) : keeps R (@raise A e).
Proof. intros st. apply R_refl. Qed.

Lemma keeps_unmodelled {A} : keeps R (@unmodelled A).
Proof. intros st. apply R_refl. Qed.

Lemma keeps_get_frame : keeps R get_frame.
Proof. intros st. apply R_refl. Qed.

Lemma keeps_get_heap : keeps R get_heap.
Proof. intros st. apply R_refl. Qed.

Lemma keeps_bind {A B} (m : M A) (k : A -> M B) :
  keeps R m -> (forall a, keeps R (k a)) -> keeps R (bind m k).
Proof.
  intros Hm Hk st. unfold bind. specialize (Hm st).
  destruct (m st) as [[a|e| |] st1]; simpl in *; try exact Hm.
  apply (R_trans _ st1); [exact Hm | apply Hk].
Qed.

Lemma keeps_try_except {A} (m handler : M A) (catches : exn -> bool) :
  keeps R m -> keeps R handler -> keeps R (try_except m catches handler).
Proof.
  intros Hm Hh st. unfold try_except. specialize (Hm st).
  destruct (m st) as [[a|e| |] st1]; simpl in *; try exact Hm.
  destruct (catches e); [|exact Hm].
  apply (R_trans _ st1); [exact Hm | apply Hh].
Qed.
End Keeps.

(** the head constant of an application *)
Ltac head_of t :=
  match t with
  | ?f _ => head_of f
  | _ => t
  end.

Create HintDb keeps.

(** [keeps R m] by the structure of [m]: binds and tests, the primitives
    known to the hint database [keeps], then the definition of the head *)
Ltac keeps_step refl trans :=
  match goal with
  | |- keeps _ (bind _ _) => apply (keeps_bind _ trans); [ | intros ?]
  | |- keeps _ (try_except _ _ _) => apply (keeps_try_except _ trans)
  | |- keeps _ (ret _) => apply (keeps_ret _ refl)
  | |- keeps _ (raise _) => apply (keeps_raise _ refl)
  | |- keeps _ unmodelled => apply (keeps_unmodelled _ refl)
  | |- keeps _ get_frame => apply (keeps_get_frame _ refl)
  | |- keeps _ get_heap => apply (keeps_get_heap _ refl)
  | |- keeps _ _ => solve [auto with keeps]
  | |- keeps _ (match ?x with _ => _ end) => destruct x
  | |- keeps _ ?m => let hd := head_of m in unfold hd
  end.

Ltac keeps_tac refl trans := repeat (keeps_step refl trans).

Lemma same_static_refl (st : state) : same_static st st.
Proof. reflexivity. Qed.

Lemma same_static_trans (a b c : state) :
  same_static a b -> same_static b c -> same_static a c.
Proof. unfold same_static. intros H1 H2. rewrite H2. exact H1. Qed.

Lemma static_set_heap (h : heap) : keeps same_static (set_heap h).
Proof. intros st. reflexivity. Qed.

Lemma static_pop : keeps same_static pop.
Proof.
  intros [fr h]. unfold pop, bind, get_frame, set_frame, ret, raise. simpl.
  destruct (py_index (data_stack fr) (-1)); reflexivity.
Qed.

Lemma static_push (values : list value) : keeps same_static (push values).
Proof. intros [fr h]. reflexivity. Qed.

Lemma static_popn (n : Z) : keeps same_static (popn n).
Proof. intros [fr h]. unfold popn. destruct (n >? 0); reflexivity. Qed.

Lemma static_take_top (n : Z) : keeps same_static (take_top n).
Proof. intros [fr h]. reflexivity. Qed.

Lemma static_jump_to (v : value) : keeps same_static (jump_to v).
Proof.
  intros [fr h]. unfold jump_to, jump_target, bind, get_frame, set_frame.
  simpl. destruct v; try reflexivity.
  destruct (offset_to_index fr !! n); reflexivity.
Qed.

Lemma static_return_value (v : value) : keeps same_static (return_value v).
Proof.
  intros [fr h]. unfold return_value, bind at 1.
  pose proof (static_pop (fr, h)) as Hp.
  destruct (pop (fr, h)) as [[a|e| |] [fr1 h1]]; simpl in *; exact Hp.
Qed.

Lemma static_return_const (v : value) : keeps same_static (return_const v).
Proof. intros [fr h]. reflexivity. Qed.

Lemma static_swap (v : value) : keeps same_static (swap v).
Proof.
  intros [fr h]. unfold swap, bind at 1, as_int.
  destruct v; try reflexivity; simpl;
    unfold bind, get_frame, set_frame, raise; simpl;
    repeat match goal with
           | |- context [match ?x with _ => _ end] => destruct x
           end; reflexivity.
Qed.

#[local] Hint Resolve static_set_heap static_pop static_push static_popn
  static_take_top static_jump_to static_return_value static_return_const
  static_swap : keeps.

Ltac static_tac := keeps_tac same_static_refl same_static_trans.

Lemma static_build_string_loop (count : nat) (res : value) :
  keeps same_static (build_string_loop count res).
Proof.
  revert res. induction count as [|count IH]; intros res;
    cbn [build_string_loop]; static_tac.
Qed.

#[local] Hint Resolve static_build_string_loop : keeps.

Lemma static_bind_parameters (c : CodeType) (defaults : option value)
    (args : list value) (range : list nat) (parsed : gmap string value) :
  keeps same_static (bind_parameters c defaults args parsed range).
Proof.
  revert parsed. induction range as [|i range IH]; intros parsed;
    cbn [bind_parameters]; static_tac.
Qed.

#[local] Hint Resolve static_bind_parameters : keeps.

Lemma static_f_frame (fn : Function) (args : list value)
    (kwargs : gmap string value) :
  keeps same_static (f_frame fn args kwargs).
Proof. static_tac. Qed.

Lemma static_run_child (loop : M value) (frame : Frame) :
  keeps same_static (run_child loop frame).
Proof.
  intros st. unfold run_child.
  destruct (loop (run_prepare frame, snd st)) as [r [fr' h']]. reflexivity.
Qed.

#[local] Hint Resolve static_f_frame static_run_child : keeps.

Lemma static_call_value (loop : M value) (callee : value) :
  forall arguments,
    keeps same_static (call_value (run_child loop) callee arguments).
Proof.
  induction callee; intros arguments; cbn [call_value];
    try (apply (keeps_raise _ same_static_refl));
    try (apply (keeps_unmodelled _ same_static_refl)).
  - unfold f. static_tac.
  - apply IHcallee1.
Qed.

Lemma lookup_method_in (name : string)
    (methods : list (string * (value -> M unit))) (handler : value -> M unit) :
  lookup_method name methods = Some handler ->
  exists k, List.In (k, handler) methods.
Proof.
  induction methods as [|[k h0] rest IH]; simpl; [discriminate|].
  destruct (String.eqb k name).
  - intros H. inversion H. subst. exists k. left. reflexivity.
  - intros H. destruct (IH H) as [k' Hk']. exists k'. right. exact Hk'.
Qed.

Lemma static_handlers (call_value : value -> list value -> M value) :
  (forall callee arguments, keeps same_static (call_value callee arguments)) ->
  forall k handler operand,
    List.In (k, handler) (Frame_methods call_value) ->
    keeps same_static (handler operand).
Proof.
  intros Hcall k handler operand Hin. unfold Frame_methods in Hin.
  repeat (destruct Hin as [Hin | Hin];
          [inversion Hin; subst; clear Hin; static_tac |]).
  destruct Hin.
Qed.

Lemma static_getattr_call (call_value : value -> list value -> M value)
    (name : string) (operand : value) :
  (forall callee arguments, keeps same_static (call_value callee arguments)) ->
  keeps same_static (getattr_call call_value name operand).
Proof.
  intros Hcall. unfold getattr_call.
  destruct (lookup_method name (Frame_methods call_value)) as [handler|] eqn:E.
  - destruct (lookup_method_in _ _ _ E) as [k Hk].
    exact (static_handlers call_value Hcall k handler operand Hk).
  - static_tac.
Qed.

Lemma static_run_body (call_value : value -> list value -> M value)
    (instr : Instruction) :
  (forall callee arguments, keeps same_static (call_value callee arguments)) ->
  keeps same_static (run_body call_value instr).
Proof.
  intros Hcall. unfold run_body.
  apply (keeps_bind _ same_static_trans);
    [apply (keeps_get_frame _ same_static_refl)|]. intros fr.
  destruct (String.eqb (lower (opname instr)) "return_value"); [static_tac|].
  apply (keeps_bind _ same_static_trans).
  - destruct (String.eqb (lower (opname instr)) "load_attr");
      apply static_getattr_call; exact Hcall.
  - intros _ [fr' h']. unfold bind, get_frame, set_frame, ret. simpl.
    destruct (Nat.eqb (ind_op fr') (ind_op fr)); reflexivity.
Qed.

(** X30. Nothing that runs in a frame rebinds what the frame was created and
    prepared with: after any number of turns of the loop of [run], however
    the run ends (a value, an exception, or out of fuel), the frame still has
    the same code, the same three scope dictionaries, the same instruction
    list and the same jump table.  Instructions change the operand stack,
    [ind_op], the attribute [return_value] and the heap, nothing else; the
    frames of the calls made on the way are other frames. *)
Theorem run_keeps_frame_static (fuel : nat) (st : state) :
  frame_static (fst (snd (run_loop fuel st))) = frame_static (fst st).
Proof.
  change (same_static st (snd (run_loop fuel st))).
  revert st. induction fuel as [|fuel IH]; intros st; [reflexivity|].
  simpl.
  destruct (instructions (fst st) !! ind_op (fst st)) as [instr|];
    [|reflexivity].
  pose proof (static_run_body (call_value (run_child (run_loop fuel))) instr
                (static_call_value (run_loop fuel)) st) as Hbody.
  destruct (run_body (call_value (run_child (run_loop fuel))) instr st)
    as [[[v|]|e| |] st1]; simpl in Hbody; try exact Hbody.
  apply (same_static_trans _ st1); [exact Hbody | apply IH].
Qed.

(** ** The call protocol *)

Lemma pure_bind_parameters (c : CodeType) (defaults : option value)
    (args : list value) (range : list nat) (parsed : gmap string value) :
  keeps eq (bind_parameters c defaults args parsed range).
Proof.
  revert parsed. induction range as [|i range IH]; intros parsed;
    cbn [bind_parameters];
    keeps_tac (@eq_refl state) (@eq_trans state).
Qed.

Lemma parse_args_ok_inv (b g l : loc) (c : CodeType) (defaults : option value)
    (args : list value) (kwargs parsed : gmap string value) (st st' : state) :
  parse_args (Closure b g l (VCode c) defaults) args kwargs st = (Ok parsed, st') ->
  st' = st /\ exists bound, parsed = kwargs ∪ bound.
Proof.
  intros H. unfold parse_args in H. unfold bind at 1 in H. simpl in H.
  unfold bind in H.
  pose proof (pure_bind_parameters c defaults args (seq 0 (co_argcount c)) ∅ st)
    as Hpure.
  destruct (bind_parameters c defaults args ∅ (seq 0 (co_argcount c)) st)
    as [[bound|e| |] st1]; simpl in Hpure; try discriminate H.
  inversion H. subst. split; [reflexivity|]. exists bound. reflexivity.
Qed.

(** X28. [call n] with a function of the machine below its [n] arguments:
    the arguments and the function leave the stack, the frame of the call
    is created and run, and what it returns is pushed in their place.  The
    caller's frame is otherwise untouched, whatever the called frame did to
    its own stack; the heap is the one the called frame leaves.  When the
    called frame ends with an exception, the exception leaves [call] with
    nothing pushed. *)
Theorem call_runs_the_function (fuel : nat) (fr : Frame) (h : heap)
    (s : list value) (fn : Function) (args : list value)
    (child child' : Frame) (h1 h2 : heap) (r : outcome value) :
  data_stack fr = s ++ VFunction fn :: args ->
  f_frame fn args ∅ (set_data_stack s fr, h)
    = (Ok child, (set_data_stack s fr, h1)) ->
  run_loop fuel (run_prepare child, h1) = (r, (child', h2)) ->
  call (call_function fuel) (VInt (Z.of_nat (length args))) (fr, h)
  = match r with
    | Ok v => (Ok tt, (set_data_stack (s ++ [v]) fr, h2))
    | Raise e => (Raise e, (set_data_stack s fr, h2))
    | Unmodelled => (Unmodelled, (set_data_stack s fr, h2))
    | OutOfFuel => (OutOfFuel, (set_data_stack s fr, h2))
    end.
Proof.
  intros Hs Hframe Hrun. unfold call, bind at 1. simpl. unfold bind at 1.
  rewrite (popn_exact fr h (s ++ [VFunction fn]) args)
    by (rewrite Hs, <- app_assoc; reflexivity).
  unfold bind at 1.
  rewrite (pop_last (set_data_stack (s ++ [VFunction fn]) fr) h s
             (VFunction fn) eq_refl).
  rewrite set_data_stack_twice.
  unfold bind at 1, call_function. cbn [call_value]. unfold f, bind at 1.
  rewrite Hframe. unfold run_child. simpl snd. rewrite Hrun.
  destruct r; reflexivity.
Qed.

Lemma call_runs_the_function_witness :
  let callee := Code 1 ["n"] []
                  [Instr "LOAD_FAST" (Some 0) (VStr "n") 0;
                   Instr "LOAD_CONST" (Some 1) (VInt 1) 2;
                   Instr "BINARY_OP" (Some 0) (VInt 0) 4;
                   Instr "RETURN_VALUE" None VNone 8] in
  let fn := Closure 0%nat 0%nat 0%nat (VCode callee) None in
  let fr := set_data_stack [VInt 9; VFunction fn; VInt 41]
              (Frame_init (Code 0 [] [] []) 0%nat 0%nat 0%nat) in
  let h := [ODict ∅] in
  fst (call (call_function 10) (VInt 1) (fr, h)) = Ok tt
  /\ data_stack (fst (snd (call (call_function 10) (VInt 1) (fr, h))))
     = [VInt 9; VInt 42].
Proof.
  intros callee fn fr h.
  pose (child := Frame_init callee 0%nat 0%nat 1%nat).
  pose (h1 := snd (snd (f_frame fn [VInt 41] ∅ (set_data_stack [VInt 9] fr, h)))).
  pose (final := snd (run_loop 10 (run_prepare child, h1))).
  pose proof (call_runs_the_function 10 fr h [VInt 9] fn [VInt 41]
                child (fst final) h1 (snd final) (Ok (VInt 42))
                eq_refl
                ltac:(vm_compute; reflexivity)
                ltac:(vm_compute; reflexivity)) as H.
  split.
  - exact (f_equal fst H).
  - exact (f_equal (fun x => data_stack (fst (snd x))) H).
Defined.

(** X29. The frame of a call.  It runs the code of the function on an empty
    stack from the first instruction; its builtins and globals are those of
    the frame that built the function, whichever frame makes the call; its
    locals are a dictionary allocated by the call, in which every keyword
    argument is bound as given (a name that is no parameter included).  A
    store in the called frame writes to that dictionary alone: every object
    that existed before the call, the locals of the building frame among
    them, is left as it was. *)
Theorem call_frame_is_fresh (b g l : loc) (c : CodeType)
    (defaults : option value) (args : list value)
    (kwargs : gmap string value) (caller : Frame) (h : heap)
    (child : Frame) (st' : state) :
  f_frame (Closure b g l (VCode c) defaults) args kwargs (caller, h)
    = (Ok child, st') ->
  child = Frame_init c b g (length h)
  /\ exists D,
       st' = (caller, h ++ [ODict D])
       /\ (forall k v, kwargs !! k = Some v -> D !! k = Some v)
       /\ forall (running : Frame) (s : list value) (x : string) (v : value),
            locals running = locals child ->
            data_stack running = s ++ [v] ->
            store_name (VStr x) (running, h ++ [ODict D])
              = (Ok tt, (set_data_stack s running, h ++ [ODict (<[x := v]> D)]))
            /\ forall l' o, h !! l' = Some o ->
                 (h ++ [ODict (<[x := v]> D)]) !! l' = Some o.
Proof.
  intros H. unfold f_frame in H.
  bind_inv H. apply parse_args_ok_inv in E as [-> [bound ->]].
  unfold bind at 1 in H. unfold read_dict, bind at 1, get_heap in H.
  simpl in H. destruct (h !! l) as [[D0| | |]|]; try discriminate H.
  simpl in H. unfold bind, new_object, get_heap, set_heap, ret in H.
  simpl in H. inversion H. subst child st'. clear H.
  split; [reflexivity|].
  exists ((kwargs ∪ bound) ∪ D0). split; [reflexivity|]. split.
  - intros k v Hk. apply lookup_union_Some_l, lookup_union_Some_l. exact Hk.
  - intros running s x v Hloc Hs. split.
    + rewrite (store_name_writes running _ s v x ((kwargs ∪ bound) ∪ D0) Hs).
      * rewrite Hloc. simpl locals. rewrite heap_insert_last. reflexivity.
      * rewrite Hloc. apply heap_lookup_last.
    + intros l' o Hl'. apply lookup_app_l_Some. exact Hl'.
Qed.

Lemma call_frame_is_fresh_witness :
  let c := Code 1 ["a"] [] [] in
  let fn := Closure 0%nat 1%nat 2%nat (VCode c) None in
  let caller := Frame_init (Code 0 [] [] []) 0%nat 1%nat 1%nat in
  let h := [ODict ∅; ODict ∅; ODict {[ "a" := VInt 0 ]}] in
  exists D,
    snd (f_frame fn [VInt 5] {[ "extra" := VInt 6 ]} (caller, h))
    = (caller, h ++ [ODict D])
    /\ D !! "extra" = Some (VInt 6).
Proof.
  intros c fn caller h.
  pose (r := f_frame fn [VInt 5] {[ "extra" := VInt 6 ]} (caller, h)).
  assert (Hr : r = (Ok (Frame_init c 0%nat 1%nat 3%nat), snd r))
    by (vm_compute; reflexivity).
  destruct (call_frame_is_fresh 0%nat 1%nat 2%nat c None [VInt 5]
              {[ "extra" := VInt 6 ]} caller h _ _ Hr)
    as (_ & D & Hst & Hkw & _).
  exists D. split; [exact Hst|].
  apply Hkw. apply lookup_singleton_eq.
Defined.
